(** * Stock watch-list client: search screen and stock graph

    A shallow embedding of the logic of
    - [src/client/screens/SearchScreen.js]: [filterBySearch], the effect that
      fills [rowData], and [initialiseData];
    - the stock graph component (imported as [../components/StockGraph]):
      [filterByDate], [filterElements] and the effect that fills the chart.

    JavaScript built-ins are modelled in [Js]: arrays are lists, strings are
    sequences of code units, a number is a rational (or NaN where the code
    can produce it), a [Date] is a time value in milliseconds since the epoch
    (or the invalid date).  What only the engine knows (the clock, the
    offsets of the local zone, the parsing of dates, the rounding of
    doubles, Unicode upper-casing) is a field of the [host]. *)

From Stdlib Require Import ZArith QArith Lia Lqa List String Ascii Bool Arith.
Import ListNotations.

Close Scope Q_scope.
Set Implicit Arguments.

(* ===================================================================== *)
(** * Built-ins *)
(* ===================================================================== *)

Module Js.

(** ** Arrays *)

(** [arr.filter(callback)]: the callback sees the element and its index;
    the elements for which it answers true are pushed, in index order, onto a
    fresh array. *)
Fixpoint filter_from (A : Type) (callback : A -> nat -> bool) (i : nat)
    (arr : list A) : list A :=
  match arr with
  | [] => []
  | e :: rest =>
      if callback e i
      then e :: filter_from callback (S i) rest
      else filter_from callback (S i) rest
  end.

Definition Array_filter (A : Type) (callback : A -> nat -> bool)
    (arr : list A) : list A :=
  filter_from callback 0 arr.

(** [arr.includes(x)] on an array of strings. *)
Definition Array_includes (arr : list string) (x : string) : bool :=
  existsb (String.eqb x) arr.

(** [arr.push(x)]. *)
Definition Array_push (A : Type) (arr : list A) (x : A) : list A :=
  arr ++ [x].

(** ** Strings *)

(** [s.startsWith(p)]: the code units of [p] are the first ones of [s]. *)
Fixpoint startsWith (s p : string) {struct p} : bool :=
  match p with
  | EmptyString => true
  | String c p' =>
      match s with
      | EmptyString => false
      | String d s' => Ascii.eqb d c && startsWith s' p'
      end
  end.

(** Text made of ASCII code units only. *)
Fixpoint is_ascii (s : string) : bool :=
  match s with
  | EmptyString => true
  | String c s' => (nat_of_ascii c <? 128) && is_ascii s'
  end.

(** Upper-casing of ASCII text: a..z go to A..Z, every other unit is kept.
    [s.toUpperCase()] itself is the engine's Unicode mapping, a field of the
    [host] below, which agrees with this table on ASCII text. *)
Definition upper_unit (c : ascii) : ascii :=
  let n := nat_of_ascii c in
  if (97 <=? n) && (n <=? 122) then ascii_of_nat (n - 32) else c.

Fixpoint toUpperCase_ascii (s : string) : string :=
  match s with
  | EmptyString => EmptyString
  | String c s' => String (upper_unit c) (toUpperCase_ascii s')
  end.

(** ** Numbers

    A finite number is the rational it denotes and [None] stands for NaN.
    On doubles [%] is exact, and so is [nth - 1] from 1 upward (below 1 it
    is negative, rounded or not); the one operation of the code that
    rounds, a division, goes through the rounding function of the [host]
    below. *)

(** Truncation toward zero. *)
Definition trunc (q : Q) : Z := Z.quot (Qnum q) (Zpos (Qden q)).

(** [a % b] for finite operands: NaN for a zero divisor, otherwise
    [a - b * q] where [q] is [a / b] truncated toward zero. *)
Definition remainder (a b : Q) : option Q :=
  if Qeq_bool b 0 then None
  else Some (a - b * inject_Z (trunc (a / b)))%Q.

(** [x === y] for a possibly-NaN [x] and a finite [y]. *)
Definition strict_equal (x : option Q) (y : Q) : bool :=
  match x with
  | Some r => Qeq_bool r y
  | None => false
  end.

(** ** The host

    What the engine supplies:
    - [now], the clock read by [new Date()];
    - [LocalTZA t isUTC], the offset of the local zone in milliseconds: at
      the instant [t] when [isUTC], and for the local time [t] otherwise
      (the engine's choice where a local time is skipped or repeated by a
      change of offset);
    - [Date_parse s], the time value [new Date(s)] parses out of a string,
      if any;
    - [double q], the rounding of a rational to a double;
    - [toUpperCase s], the Unicode upper-casing of [s.toUpperCase()], which
      on ASCII text is [toUpperCase_ascii]. *)
Record host : Type := {
  now : Z;
  LocalTZA : Z -> bool -> Z;
  Date_parse : string -> option Z;
  double : Q -> Q;
  toUpperCase : string -> string;
  toUpperCase_on_ascii :
    forall s : string, is_ascii s = true -> toUpperCase s = toUpperCase_ascii s
}.

(** ** Dates

    A time value is an integer number of milliseconds since the epoch, at
    most [maxTime] away from it, and [None] stands for the invalid date. *)

Definition maxTime : Z := 8640000000000000.

(** A time value out of range becomes the invalid date. *)
Definition TimeClip (t : Z) : option Z :=
  if (Z.abs t <=? maxTime)%Z then Some t else None.

Definition msPerDay : Z := 86400000.
Definition Day (t : Z) : Z := (t / msPerDay)%Z.
Definition TimeWithinDay (t : Z) : Z := (t mod msPerDay)%Z.
Definition MakeDate (day time : Z) : Z := (day * msPerDay + time)%Z.

(** The local time of an instant, and the instant of a local time. *)
Definition LocalTime (h : host) (t : Z) : Z := (t + LocalTZA h t true)%Z.
Definition UTC (h : host) (t : Z) : Z := (t - LocalTZA h t false)%Z.

(** Day of the month, 1 to 31, of the day numbered [day] (day 0 is
    1970-01-01), in the proleptic Gregorian calendar. *)
Definition DateFromDay (day : Z) : Z :=
  (let z := day + 719468 in
   let doe := z mod 146097 in
   let yoe := (doe - doe / 1460 + doe / 36524 - doe / 146096) / 365 in
   let doy := doe - (365 * yoe + yoe / 4 - yoe / 100) in
   let mp := (5 * doy + 2) / 153 in
   doy - (153 * mp + 2) / 5 + 1)%Z.

(** [d.getDate()] for a date of time value [t]. *)
Definition getDate (h : host) (t : Z) : Z :=
  DateFromDay (Day (LocalTime h t)).

(** [d.setDate(date)] for a date of time value [t]: the new time value.  The
    day is counted from the first of the month of [t], so [date] may fall
    outside the month; the time within the day is kept. *)
Definition setDate (h : host) (t : Z) (date : Z) : option Z :=
  (let lt := LocalTime h t in
   let firstOfMonth := Day lt - (DateFromDay (Day lt) - 1) in
   let MakeDay := firstOfMonth + date - 1 in
   TimeClip (UTC h (MakeDate MakeDay (TimeWithinDay lt))))%Z.

(** [x > y] on two dates: their time values are compared, and a comparison
    with an invalid date (NaN) is false. *)
Definition Date_gt (x y : option Z) : bool :=
  match x, y with
  | Some a, Some b => (b <? a)%Z
  | _, _ => false
  end.

End Js.

(* ===================================================================== *)
(** * SearchScreen.js *)
(* ===================================================================== *)

Module SearchScreen.
Import Js.

(** An entry of [stockList]. *)
Record Stock : Type := {
  Symbol : string;
  Name : string;
  Industry : string
}.

(** [filterBySearch(data, param)]. *)
Definition filterBySearch (h : host) (data : list Stock) (param : string)
    : list Stock :=
  Array_filter
    (fun stock _ =>
       startsWith (Symbol stock) (toUpperCase h param)
       || startsWith (Name stock) param)
    data.

(** The effect on [stockList, searchQuery]: the value handed to [setRowData].
    [searchQuery] is [null] ([None]) until the user types. *)
Definition rowData (h : host) (stockList : list Stock)
    (searchQuery : option string) : list Stock :=
  let data := stockList in
  match searchQuery with
  | Some query => filterBySearch h data query
  | None => data
  end.

(** The key the list gives a row: [keyExtractor]. *)
Definition keyExtractor (element : Stock) : string := Symbol element.

(** ** [initialiseData] *)

(** What an awaited watch-list read can be: an array of symbols, or one of
    the two missing values. *)
Inductive value : Type :=
| Undefined
| Null
| Arr (elements : list string).

(** The promise returned by [getStocksFromDB()] or [_retrieveData()], once
    settled. *)
Inductive promise : Type :=
| Resolved (v : value)
| Rejected.

Inductive error : Type :=
| TypeError      (* a property read on undefined or null *)
| Rejection.     (* an awaited promise was rejected *)

(** How a piece of the function body ends: normally, or by a throw that
    nothing in [initialiseData] catches. *)
Inductive completion (A : Type) : Type :=
| Normal (a : A)
| Throw (e : error).
Arguments Throw {A} e.

Definition bind (A B : Type) (c : completion A) (k : A -> completion B)
    : completion B :=
  match c with
  | Normal a => k a
  | Throw e => Throw e
  end.

Notation "x <- c ;; k" := (bind c (fun x => k))
  (at level 100, c at next level, right associativity).

Definition await (p : promise) : completion value :=
  match p with
  | Resolved v => Normal v
  | Rejected => Throw Rejection
  end.

(** [v !== undefined] and [v !== null]. *)
Definition ne_undefined (v : value) : bool :=
  match v with Undefined => false | _ => true end.

Definition ne_null (v : value) : bool :=
  match v with Null => false | _ => true end.

(** What the function has done so far: the local array [newState] and the
    calls of [AsyncStorage.setItem(key, value)], oldest first. *)
Record effects : Type := {
  newState : list string;
  setItem : list (string * string)
}.

(** [v.map(callback)], for a callback run for its effects: reading [map] off
    [undefined] or [null] throws. *)
Definition map_do (v : value) (callback : string -> effects -> effects)
    (st : effects) : completion effects :=
  match v with
  | Arr elements =>
      Normal (fold_left (fun st element => callback element st) elements st)
  | Undefined | Null => Throw TypeError
  end.

(** The result records the argument of [initialiseContextState] (the final
    [newState]) and the [setItem] calls made. *)
Definition initialiseData (getStocksFromDB _retrieveData : promise)
    : completion effects :=
  let st := {| newState := []; setItem := [] |} in
  newStocksFromDB <- await getStocksFromDB ;;
  newStocksFromAsync <- await _retrieveData ;;
  st <- (if ne_undefined newStocksFromAsync || ne_null newStocksFromAsync
         then map_do newStocksFromAsync
                (fun element st =>
                   {| newState := Array_push (newState st) element;
                      setItem := setItem st |})
                st
         else Normal st) ;;
  st <- (if ne_undefined newStocksFromDB || ne_null newStocksFromDB
         then map_do newStocksFromAsync
                (fun element st =>
                   let isInvalidElement := Array_includes (newState st) element in
                   if negb isInvalidElement
                   then {| newState := Array_push (newState st) element;
                           setItem := Array_push (setItem st) (element, element) |}
                   else st)
                st
         else Normal st) ;;
  Normal st.

End SearchScreen.

(* ===================================================================== *)
(** * The stock graph component *)
(* ===================================================================== *)

Module StockGraph.
Import Js.

(** An element of [stocks]. *)
Record point : Type := {
  labels : string;      (* the date of the quote *)
  data : Q;
  percentage : Q
}.

(** [filterByDate(data, param)]. *)
Definition filterByDate (h : host) (data : list point) (param : Z)
    : list point :=
  let newDate := now h in
  let newDate := setDate h newDate (getDate h newDate - param) in
  let newData :=
    Array_filter
      (fun stock _ => Date_gt (Date_parse h (labels stock)) newDate)
      data in
  newData.

(** [filterElements(arr, nth)]. *)
Definition filterElements (A : Type) (arr : list A) (nth : Q) : list A :=
  Array_filter
    (fun _ i => strict_equal (remainder (inject_Z (Z.of_nat i)) nth) (nth - 1)%Q)
    arr.

(** The component: the array [stocks] owned by the [useStockCodes] hook, and
    the state variables [labels], [values], [filter] ([undefined] or a number
    of days) and [toggle]. *)
Record state : Type := {
  st_stocks : list point;
  st_labels : list string;
  st_values : list Q;
  st_filter : option Z;
  st_toggle : bool
}.

(** The value of [newArray] once the day window has been applied to the
    (already reversed) array [stocks]. *)
Definition newArray (h : host) (stocks : list point) (filter : option Z)
    : list point :=
  let newArray := stocks in
  match filter with
  | Some days => filterByDate h stocks days
  | None => newArray
  end.

(** The effect on [stocks, filter, toggle].  [stocks.reverse()] reverses the
    array in place and returns that same array, so from there on [stocks]
    and [newArray] are one reversed array, and the hook keeps it. *)
Definition effect (h : host) (st : state) : state :=
  if 0 <? List.length (st_stocks st) then
    let stocks := rev (st_stocks st) in
    let newArray := newArray h stocks (st_filter st) in
    let INDEX := double h (inject_Z (Z.of_nat (List.length newArray)) / 5)%Q in
    let newIndexes := map labels newArray in
    let newLabels := filterElements newIndexes INDEX in
    let reversedLabels := newLabels in
    {| st_stocks := stocks;
       st_labels := reversedLabels;
       st_values :=
         if st_toggle st
         then map percentage newArray
         else map data newArray;
       st_filter := st_filter st;
       st_toggle := st_toggle st |}
  else st.

(** [handleToggle()]. *)
Definition handleToggle (st : state) : state :=
  if st_toggle st
  then {| st_stocks := st_stocks st; st_labels := st_labels st;
          st_values := st_values st; st_filter := st_filter st;
          st_toggle := false |}
  else {| st_stocks := st_stocks st; st_labels := st_labels st;
          st_values := st_values st; st_filter := st_filter st;
          st_toggle := true |}.

(** [setFilter(filter)], the handler of the buttons 1W (7), 1M (30), 2M (60)
    and R ([undefined]). *)
Definition setFilter (filter : option Z) (st : state) : state :=
  {| st_stocks := st_stocks st; st_labels := st_labels st;
     st_values := st_values st; st_filter := filter;
     st_toggle := st_toggle st |}.

(** Whether two values of [filter] are the same for the dependency list of
    the effect. *)
Definition same_filter (f g : option Z) : bool :=
  match f, g with
  | None, None => true
  | Some a, Some b => (a =? b)%Z
  | _, _ => false
  end.

(** A press on Toggle: the state changes, so the effect runs again. *)
Definition pressToggle (h : host) (st : state) : state :=
  effect h (handleToggle st).

(** A press on a window button: the effect runs again only if [filter]
    has changed. *)
Definition pressFilter (h : host) (filter : option Z) (st : state) : state :=
  if same_filter (st_filter st) filter then st
  else effect h (setFilter filter st).

End StockGraph.

(* ===================================================================== *)
(** * Specification vocabulary *)
(* ===================================================================== *)

(** [Selected P l l']: [l'] is [l] with exactly the elements satisfying [P]
    kept, each at its place relative to the others. *)
Inductive Selected (A : Type) (P : A -> Prop) : list A -> list A -> Prop :=
| Selected_nil : Selected P [] []
| Selected_keep x l l' : P x -> Selected P l l' -> Selected P (x :: l) (x :: l')
| Selected_drop x l l' : ~ P x -> Selected P l l' -> Selected P (x :: l) l'.

(** [HasPrefix p s]: [s] is [p] followed by some rest. *)
Definition HasPrefix (p s : string) : Prop :=
  exists rest, s = (p ++ rest)%string.

(** [Subsequence l' l]: [l'] is [l] with some elements left out. *)
Inductive Subsequence (A : Type) : list A -> list A -> Prop :=
| Subsequence_nil : Subsequence [] []
| Subsequence_skip x l' l : Subsequence l' l -> Subsequence l' (x :: l)
| Subsequence_take x l' l : Subsequence l' l -> Subsequence (x :: l') (x :: l).

Import SearchScreen StockGraph.

(** The condition of [filterBySearch], as the specification words it: the
    symbol starts with the upper-cased query, or the name starts with the
    query as typed. *)
Definition Matches (h : Js.host) (query : string) (stock : Stock) : Prop :=
  HasPrefix (Js.toUpperCase h query) (Symbol stock)
  \/ HasPrefix query (Name stock).

(** The same condition for a query of ASCII text, the upper-casing spelled
    out by the table. *)
Definition MatchesAscii (query : string) (stock : Stock) : Prop :=
  HasPrefix (Js.toUpperCase_ascii query) (Symbol stock)
  \/ HasPrefix query (Name stock).

(** The instant whose local time is that of now, [d] days earlier. *)
Definition daysBack (h : Js.host) (d : Z) : Z :=
  Js.UTC h (Js.LocalTime h (Js.now h) - d * Js.msPerDay).

(** The offset the engine applies to the local time [d] days back is the
    offset it applies now: no change of offset (daylight saving, a change of
    zone) lies between the two ends of the window. *)
Definition SameOffset (h : Js.host) (d : Z) : Prop :=
  Js.LocalTZA h (Js.LocalTime h (Js.now h) - d * Js.msPerDay) false
  = Js.LocalTZA h (Js.now h) true.

(** What a run of [initialiseData] hands to [initialiseContextState], and
    the [AsyncStorage.setItem] calls it makes, when it runs to its end. *)
Definition merged (c : completion effects) : option (list string) :=
  match c with
  | Normal st => Some (newState st)
  | Throw _ => None
  end.

Definition persisted (c : completion effects) : option (list (string * string)) :=
  match c with
  | Normal st => Some (setItem st)
  | Throw _ => None
  end.

(** The date of a point is valid and strictly later than [cutoff]. *)
Definition LaterThan (h : Js.host) (cutoff : Z) (p : point) : Prop :=
  exists t, Js.Date_parse h (labels p) = Some t /\ (cutoff < t)%Z.

(** The tests [filterBySearch] and [filterByDate] apply to an element. *)
Definition search_test (h : Js.host) (param : string) (stock : Stock) : bool :=
  Js.startsWith (Symbol stock) (Js.toUpperCase h param)
  || Js.startsWith (Name stock) param.

Definition date_test (h : Js.host) (newDate : option Z) (stock : point) : bool :=
  Js.Date_gt (Js.Date_parse h (labels stock)) newDate.

(** The value shown for a point: [percentage] when toggled, else [data]. *)
Definition shown (toggle : bool) (p : point) : Q :=
  if toggle then percentage p else data p.

(* ===================================================================== *)
(** * Sample inputs *)
(* ===================================================================== *)

Definition AAPL : Stock :=
  {| Symbol := "AAPL"; Name := "Apple"; Industry := "Tech" |}.
Definition AMZN : Stock :=
  {| Symbol := "AMZN"; Name := "Amazon"; Industry := "Retail" |}.

(** A host for the examples: 2021-06-01T02:00:00Z on the clock, a zone ten
    hours east of Greenwich all year, dates written year-month-day, and,
    the examples being ASCII text, the upper-casing of the table. *)
Definition parse0 (s : string) : option Z :=
  if String.eqb s "2021-05-31" then Some 1622419200000%Z
  else if String.eqb s "2021-05-28" then Some 1622160000000%Z
  else if String.eqb s "2021-05-20" then Some 1621468800000%Z
  else if String.eqb s "2021-03-01" then Some 1614556800000%Z
  else None.

Definition host0 : Js.host :=
  {| Js.now := 1622512800000;
     Js.LocalTZA := fun _ _ => 36000000%Z;
     Js.Date_parse := parse0;
     Js.double := fun q => q;
     Js.toUpperCase := Js.toUpperCase_ascii;
     Js.toUpperCase_on_ascii := fun _ _ => eq_refl |}.

(** A host whose zone, one hour east of Greenwich, moved its clocks an hour
    forward on 2021-03-28 at 01:00:00Z; on its clock it is
    2021-04-01T12:00:00Z.  The local times of the skipped hour are read with
    the offset from before the change. *)
Definition summerTime : Z := 1616893200000.

Definition parseDST (s : string) : option Z :=
  if String.eqb s "2021-03-25T12:30:00Z" then Some 1616675400000%Z
  else None.

Definition hostDST : Js.host :=
  {| Js.now := 1617278400000;
     Js.LocalTZA := fun t isUTC =>
       if isUTC
       then (if t <? summerTime then 3600000 else 7200000)%Z
       else (if t <? summerTime + 7200000 then 3600000 else 7200000)%Z;
     Js.Date_parse := parseDST;
     Js.double := fun q => q;
     Js.toUpperCase := Js.toUpperCase_ascii;
     Js.toUpperCase_on_ascii := fun _ _ => eq_refl |}.

Definition quote (date : string) (price : Q) : point :=
  {| labels := date; data := price; percentage := (price / 100)%Q |}.

(** The series as the API delivers it, newest first; the last date does not
    parse. *)
Definition series0 : list point :=
  [ quote "2021-05-31" 125;
    quote "2021-05-28" 124;
    quote "2021-05-20" 127;
    quote "2021-03-01" 121;
    quote "n/a" 0 ].

(** Fifty quotes, labelled 00 to 49 in the order of delivery. *)
Definition two_digits (n : nat) : string :=
  String (ascii_of_nat (48 + n / 10)) (String (ascii_of_nat (48 + n mod 10)) EmptyString).

Definition fifty : list point :=
  map (fun n => quote (two_digits n) (inject_Z (Z.of_nat n))) (seq 0 50).

(* ===================================================================== *)
(** * Facts about the built-ins *)
(* ===================================================================== *)

Section ArrayFacts.
Variable A : Type.

(** A filter whose callback decides [P] selects the elements satisfying
    [P]. *)
Lemma filter_from_Selected (callback : A -> nat -> bool) (P : A -> Prop) :
  forall arr i,
    (forall e j, callback e j = true <-> P e) ->
    Selected P arr (Js.filter_from callback i arr).
Proof.
  induction arr as [|e rest IH]; intros i Hcb; simpl.
  - constructor.
  - destruct (callback e i) eqn:E.
    + apply Selected_keep; [apply (Hcb e i), E | apply IH, Hcb].
    + apply Selected_drop; [| apply IH, Hcb].
      intro HP. apply (Hcb e i) in HP. congruence.
Qed.

Lemma Array_filter_Selected (callback : A -> nat -> bool) (P : A -> Prop) arr :
  (forall e j, callback e j = true <-> P e) ->
  Selected P arr (Js.Array_filter callback arr).
Proof. intro H. apply filter_from_Selected, H. Qed.

(** What [Selected] pins down: the result is unique, ... *)
Lemma Selected_unique (P : A -> Prop) l l1 l2 :
  Selected P l l1 -> Selected P l l2 -> l1 = l2.
Proof.
  intro H1. revert l2.
  induction H1 as [|x l l' Hx _ IH|x l l' Hx _ IH]; intros l2 H2;
    inversion H2; subst; try contradiction; auto.
  f_equal. auto.
Qed.

(** ... its elements are those of the input that satisfy [P], ... *)
Lemma Selected_In (P : A -> Prop) l l' :
  Selected P l l' -> forall x, In x l' <-> In x l /\ P x.
Proof.
  induction 1 as [|y l l' Hy _ IH|y l l' Hy _ IH]; intro x; simpl.
  - tauto.
  - rewrite IH. split.
    + intros [->|[? ?]]; auto.
    + intros [[->|?] ?]; auto.
  - rewrite IH. split.
    + intros [? ?]; auto.
    + intros [[->|?] ?]; [contradiction | auto].
Qed.

Lemma Selected_Subsequence (P : A -> Prop) l l' :
  Selected P l l' -> Subsequence l' l.
Proof. induction 1; constructor; assumption. Qed.

(** A callback that is always true keeps the array; the result is never
    longer than the array. *)
Lemma filter_from_all (callback : A -> nat -> bool) :
  forall arr i,
    (forall e j, callback e j = true) ->
    Js.filter_from callback i arr = arr.
Proof.
  induction arr as [|e rest IH]; intros i Hcb; simpl; [reflexivity|].
  rewrite Hcb. f_equal. apply IH, Hcb.
Qed.

Lemma filter_from_length (callback : A -> nat -> bool) :
  forall arr i, List.length (Js.filter_from callback i arr) <= List.length arr.
Proof.
  induction arr as [|e rest IH]; intro i; simpl; [lia|].
  destruct (callback e i); simpl; specialize (IH (S i)); lia.
Qed.
End ArrayFacts.

(** [startsWith] decides [HasPrefix]. *)
Lemma startsWith_HasPrefix : forall s p,
  Js.startsWith s p = true <-> HasPrefix p s.
Proof.
  intros s p. revert s.
  induction p as [|c p IH]; intro s; simpl.
  - split; [intros _; exists s; reflexivity | reflexivity].
  - destruct s as [|d s]; simpl.
    + split; [discriminate | intros [r Hr]; discriminate].
    + rewrite andb_true_iff, Ascii.eqb_eq, IH. split.
      * intros [-> [r ->]]. exists r. reflexivity.
      * intros [r Hr]. injection Hr as -> ->. split; [reflexivity | exists r; reflexivity].
Qed.

(* ===================================================================== *)
(** * Search *)
(* ===================================================================== *)

(** On ASCII text the engine's upper-casing is the table. *)
Lemma Matches_ascii (h : Js.host) (query : string) (stock : Stock) :
  Js.is_ascii query = true ->
  (Matches h query stock <-> MatchesAscii query stock).
Proof.
  intro Hascii. unfold Matches, MatchesAscii.
  rewrite (Js.toUpperCase_on_ascii h query Hascii). tauto.
Qed.

(** C4. For a typed (non-null, non-empty) query, the rows shown are exactly
    the stocks whose symbol starts with the upper-cased query or whose name
    starts with the query as typed, in the order of the stock list.  The
    upper-casing is the engine's; for a query of ASCII text it is the one of
    the table: a..z to A..Z on the symbol side, none on the name side. *)
Theorem filterBySearch_selects_prefix_matches :
  forall (h : Js.host) (stockList : list Stock) (query : string),
    query <> EmptyString ->
    Selected (Matches h query) stockList (rowData h stockList (Some query))
    /\ (Js.is_ascii query = true ->
        Selected (MatchesAscii query) stockList (rowData h stockList (Some query))).
Proof.
  intros h stockList query _.
  assert (Hsel : Selected (Matches h query) stockList
                   (rowData h stockList (Some query))).
  { unfold rowData, filterBySearch.
    apply Array_filter_Selected. intros stock _.
    unfold Matches.
    rewrite orb_true_iff, !startsWith_HasPrefix. tauto. }
  split; [exact Hsel |].
  intro Hascii. unfold rowData, filterBySearch.
  apply Array_filter_Selected. intros stock _.
  rewrite <- (@Matches_ascii h query stock Hascii). unfold Matches.
  rewrite orb_true_iff, !startsWith_HasPrefix. tauto.
Qed.

Lemma filterBySearch_selects_prefix_matches_witness :
  "aap"%string <> EmptyString
  /\ Selected (Matches host0 "aap") [AAPL; AMZN]
       (rowData host0 [AAPL; AMZN] (Some "aap"%string))
  /\ (Js.is_ascii "aap" = true ->
      Selected (MatchesAscii "aap") [AAPL; AMZN]
        (rowData host0 [AAPL; AMZN] (Some "aap"%string))).
Proof.
  assert (H : "aap"%string <> EmptyString) by discriminate.
  exact (conj H (filterBySearch_selects_prefix_matches host0 [AAPL; AMZN] H)).
Defined.

Example search_A : rowData host0 [AAPL; AMZN] (Some "A"%string) = [AAPL; AMZN].
Proof. reflexivity. Qed.

Example search_AAP : rowData host0 [AAPL; AMZN] (Some "AAP"%string) = [AAPL].
Proof. reflexivity. Qed.

(** The asymmetry: a lower-case query still matches the symbol, not the name. *)
Example search_lower_case :
  rowData host0 [AAPL; AMZN] (Some "aa"%string) = [AAPL]
  /\ rowData host0 [AAPL; AMZN] (Some "ap"%string) = [].
Proof. split; reflexivity. Qed.

(** C10. With the query still [null] the rows are the stock list itself, and
    with the empty string every stock passes the filter: the rows are the
    same stocks in the same order. *)
Theorem rowData_null_or_empty_query :
  forall (h : Js.host) (stockList : list Stock),
    rowData h stockList None = stockList
    /\ rowData h stockList (Some EmptyString) = stockList.
Proof.
  intros h stockList. split; [reflexivity |].
  unfold rowData, filterBySearch, Js.Array_filter.
  apply filter_from_all. intros stock _. apply orb_true_r.
Qed.

(* ===================================================================== *)
(** * Watch-list initialisation *)
(* ===================================================================== *)

(** [includes] is membership. *)
Lemma Array_includes_In (arr : list string) (x : string) :
  Js.Array_includes arr x = true <-> In x arr.
Proof.
  unfold Js.Array_includes. rewrite existsb_exists. split.
  - intros [y [Hy Heq]]. apply String.eqb_eq in Heq. subst. exact Hy.
  - intro H. exists x. split; [exact H | apply String.eqb_refl].
Qed.

(** First pass: every cached element is pushed, nothing is stored. *)
Lemma first_pass (elements : list string) :
  forall st,
    fold_left
      (fun st element =>
         {| newState := Js.Array_push (newState st) element;
            setItem := setItem st |})
      elements st
    = {| newState := newState st ++ elements; setItem := setItem st |}.
Proof.
  induction elements as [|e rest IH]; intro st; simpl.
  - rewrite app_nil_r. destruct st; reflexivity.
  - rewrite IH. simpl. unfold Js.Array_push. rewrite <- app_assoc. reflexivity.
Qed.

(** Second pass: it walks the cached array again, so it only meets elements
    the first pass has pushed, and does nothing. *)
Lemma second_pass (elements : list string) :
  forall st,
    (forall e, In e elements -> In e (newState st)) ->
    fold_left
      (fun st element =>
         let isInvalidElement := Js.Array_includes (newState st) element in
         if negb isInvalidElement
         then {| newState := Js.Array_push (newState st) element;
                 setItem := Js.Array_push (setItem st) (element, element) |}
         else st)
      elements st
    = st.
Proof.
  induction elements as [|e rest IH]; intros st Hin; simpl; [reflexivity|].
  assert (He : Js.Array_includes (newState st) e = true).
  { apply Array_includes_In, Hin. left. reflexivity. }
  rewrite He. simpl. apply IH. intros e' He'. apply Hin. right. exact He'.
Qed.

(** Both guards hold for every value. *)
Lemma guards_always_true (v : value) : ne_undefined v || ne_null v = true.
Proof. destruct v; reflexivity. Qed.

(** Whatever the database read resolved to, the state handed to
    [initialiseContextState] is the cached array and nothing is stored. *)
Lemma initialiseData_resolved (db : value) (cached : list string) :
  initialiseData (Resolved db) (Resolved (Arr cached))
  = Normal {| newState := cached; setItem := [] |}.
Proof.
  unfold initialiseData, await, bind.
  rewrite guards_always_true. unfold map_do at 1.
  rewrite first_pass. cbn [newState setItem app].
  rewrite guards_always_true. unfold map_do.
  rewrite second_pass; [reflexivity |].
  cbn [newState]. auto.
Qed.

(** A missing cache read stops the function at the first [.map]. *)
Lemma initialiseData_cache_missing (db : value) (cache : value) :
  cache = Undefined \/ cache = Null ->
  initialiseData (Resolved db) (Resolved cache) = Throw TypeError.
Proof. intros [-> | ->]; reflexivity. Qed.

(** A rejected read is not caught. *)
Lemma initialiseData_rejected (p : promise) :
  initialiseData Rejected p = Throw Rejection
  /\ (forall db, initialiseData (Resolved db) Rejected = Throw Rejection).
Proof. split; reflexivity. Qed.

(** C1 (the code departs from it).  The merged state is the cached array,
    whatever the database holds: a symbol that only the database has is left
    out.  With the database holding AAPL and an empty cache, the merged
    state is empty. *)
Theorem merge_leaves_out_remote_only_symbols :
  (forall remoteEntries cachedEntries : list string,
     merged (initialiseData (Resolved (Arr remoteEntries))
                            (Resolved (Arr cachedEntries)))
     = Some cachedEntries)
  /\ merged (initialiseData (Resolved (Arr ["AAPL"%string])) (Resolved (Arr [])))
     = Some [].
Proof.
  split.
  - intros remoteEntries cachedEntries.
    rewrite initialiseData_resolved. reflexivity.
  - reflexivity.
Qed.

(** C2 (the code departs from it).  No [setItem] call is made when the reads
    resolve to arrays: with the database holding AAPL and an empty cache,
    the list of calls is empty where one call for AAPL is due. *)
Theorem merge_stores_nothing :
  (forall remoteEntries cachedEntries : list string,
     persisted (initialiseData (Resolved (Arr remoteEntries))
                               (Resolved (Arr cachedEntries)))
     = Some [])
  /\ persisted (initialiseData (Resolved (Arr ["AAPL"%string])) (Resolved (Arr [])))
     = Some [].
Proof.
  split.
  - intros remoteEntries cachedEntries.
    rewrite initialiseData_resolved. reflexivity.
  - reflexivity.
Qed.

(** C3 (the code departs from it). Both guards are true for every value
    ([x !== undefined || x !== null]), so a missing cache read reaches
    [newStocksFromAsync.map] and throws; [initialiseContextState] is not
    called. *)
Theorem initialiseData_fails_on_missing_cache :
  initialiseData (Resolved (Arr ["AAPL"%string])) (Resolved Null) = Throw TypeError
  /\ initialiseData (Resolved (Arr ["AAPL"%string])) (Resolved Undefined) = Throw TypeError
  /\ initialiseData (Resolved (Arr ["AAPL"%string])) Rejected = Throw Rejection.
Proof. repeat split; reflexivity. Qed.

(** A missing database read does no harm: the second pass never looks at
    it. *)
Lemma initialiseData_db_missing (cached : list string) :
  initialiseData (Resolved Null) (Resolved (Arr cached))
  = Normal {| newState := cached; setItem := [] |}
  /\ initialiseData (Resolved Undefined) (Resolved (Arr cached))
     = Normal {| newState := cached; setItem := [] |}.
Proof. split; apply initialiseData_resolved. Qed.

(* ===================================================================== *)
(** * The day window *)
(* ===================================================================== *)

(** 1970-01-01, 2021-06-15, 2000-02-29 and 2021-05-31. *)
Example DateFromDay_samples :
  map Js.DateFromDay [0; 18793; 11016; 18778]%Z = [1; 15; 29; 31]%Z.
Proof. reflexivity. Qed.

(** On the sample host it is noon of 2021-06-01, local time. *)
Example getDate_host0 : Js.getDate host0 (Js.now host0) = 1%Z.
Proof. reflexivity. Qed.

(** Going back [d] days with [setDate (getDate - d)] moves the local time
    back by [d] whole days, whatever the day of the month is, and takes the
    instant of that local time: the new time value is [daysBack], clipped. *)
Lemma setDate_days_back (h : Js.host) (d : Z) :
  Js.setDate h (Js.now h) (Js.getDate h (Js.now h) - d)
  = Js.TimeClip (daysBack h d).
Proof.
  unfold daysBack, Js.setDate, Js.getDate, Js.MakeDate, Js.TimeWithinDay, Js.Day.
  cbv zeta. do 2 f_equal.
  set (lt := Js.LocalTime h (Js.now h)).
  set (dom := Js.DateFromDay (lt / Js.msPerDay)).
  pose proof (Z.div_mod lt Js.msPerDay) as Hdm.
  unfold Js.msPerDay in *. lia.
Qed.

(** With the same offset at both ends, [d] days back is [d] times 24 hours
    back. *)
Lemma daysBack_same_offset (h : Js.host) (d : Z) :
  SameOffset h d -> daysBack h d = (Js.now h - d * Js.msPerDay)%Z.
Proof.
  unfold SameOffset, daysBack, Js.UTC. intro H. rewrite H.
  unfold Js.LocalTime. lia.
Qed.

(** [TimeClip] keeps a time value in range and invalidates any other. *)
Lemma TimeClip_in_range (t : Z) :
  (Z.abs t <= Js.maxTime)%Z -> Js.TimeClip t = Some t.
Proof.
  intro H. unfold Js.TimeClip.
  destruct (Z.leb_spec (Z.abs t) Js.maxTime); [reflexivity | lia].
Qed.

Lemma TimeClip_out_of_range (t : Z) :
  (Js.maxTime < Z.abs t)%Z -> Js.TimeClip t = None.
Proof.
  intro H. unfold Js.TimeClip.
  destruct (Z.leb_spec (Z.abs t) Js.maxTime); [lia | reflexivity].
Qed.

(** The test of [filterByDate] against a valid cutoff. *)
Lemma Date_gt_LaterThan (h : Js.host) (cutoff : Z) (p : point) :
  Js.Date_gt (Js.Date_parse h (labels p)) (Some cutoff) = true
  <-> LaterThan h cutoff p.
Proof.
  unfold LaterThan, Js.Date_gt.
  destruct (Js.Date_parse h (labels p)) as [t|].
  - rewrite Z.ltb_lt. split.
    + intro H. exists t. auto.
    + intros [t' [Ht' H]]. injection Ht' as <-. exact H.
  - split; [discriminate | intros [t' [Ht' _]]; discriminate].
Qed.

(** Nothing is later than an invalid date. *)
Lemma filterByDate_invalid_cutoff (h : Js.host) (S : list point) (d : Z) :
  (Js.maxTime < Z.abs (daysBack h d))%Z ->
  filterByDate h S d = [].
Proof.
  intro H. unfold filterByDate. cbv zeta.
  rewrite setDate_days_back, (TimeClip_out_of_range _ H).
  unfold Js.Array_filter. generalize 0.
  induction S as [|p S IH]; intro i; simpl; [reflexivity|].
  destruct (Js.Date_parse h (labels p)); simpl; apply IH.
Qed.

(** Whatever the zone does, the window keeps exactly the points dated later
    than [daysBack], when that is a date. *)
Lemma filterByDate_selects_after_daysBack (h : Js.host) (S : list point) (d : Z) :
  (Z.abs (daysBack h d) <= Js.maxTime)%Z ->
  Selected (LaterThan h (daysBack h d)) S (filterByDate h S d).
Proof.
  intro Hrange. unfold filterByDate. cbv zeta.
  rewrite setDate_days_back, (TimeClip_in_range _ Hrange).
  apply Array_filter_Selected. intros p _. apply Date_gt_LaterThan.
Qed.

(** C5, as the code has it.  For a day count [d >= 0], when the zone has the
    same offset at both ends of the window and the cutoff, [d] times 24
    hours before now, is still inside the range of [Date], the window keeps
    exactly the points dated strictly later than the cutoff, in the order
    of the series; a point whose date is invalid or not later is dropped. *)
Theorem filterByDate_keeps_exactly_later_points :
  forall (h : Js.host) (S : list point) (d : Z),
    (0 <= d)%Z ->
    SameOffset h d ->
    (Z.abs (Js.now h - d * Js.msPerDay) <= Js.maxTime)%Z ->
    Selected (LaterThan h (Js.now h - d * Js.msPerDay)) S (filterByDate h S d).
Proof.
  intros h S d _ Hzone Hrange.
  rewrite <- (daysBack_same_offset Hzone) in *.
  apply filterByDate_selects_after_daysBack, Hrange.
Qed.

Lemma filterByDate_keeps_exactly_later_points_witness :
  (0 <= 7)%Z
  /\ SameOffset host0 7
  /\ (Z.abs (Js.now host0 - 7 * Js.msPerDay) <= Js.maxTime)%Z
  /\ Selected (LaterThan host0 (Js.now host0 - 7 * Js.msPerDay)) series0
       (filterByDate host0 series0 7).
Proof.
  assert (H0 : (0 <= 7)%Z) by lia.
  assert (Hz : SameOffset host0 7) by reflexivity.
  assert (H1 : (Z.abs (Js.now host0 - 7 * Js.msPerDay) <= Js.maxTime)%Z)
    by (unfold Js.maxTime, Js.msPerDay; simpl; lia).
  exact (conj H0 (conj Hz (conj H1
          (@filterByDate_keeps_exactly_later_points host0 series0 7 H0 Hz H1)))).
Defined.

Example filterByDate_week :
  filterByDate host0 series0 7 = [quote "2021-05-31" 125; quote "2021-05-28" 124].
Proof. reflexivity. Qed.

(** C5 fails as stated, in two ways.  Two hundred million days back the
    cutoff is no longer a date, the comparison fails for every point, and
    points dated later than the cutoff are dropped.  And across a change of
    the zone's offset the cutoff keeps the local time of day, not the 24
    hours: four days after the clocks went forward, a week back is 7 times
    24 hours less one hour, and a point dated half an hour inside the last
    7 times 24 hours is dropped. *)
Lemma filterByDate_cutoff_counterexample :
  ((0 <= 200000000)%Z
   /\ filterByDate host0 series0 200000000 = []
   /\ In (quote "2021-05-31" 125) series0
   /\ LaterThan host0 (Js.now host0 - 200000000 * Js.msPerDay)
        (quote "2021-05-31" 125))
  /\ ((0 <= 7)%Z
      /\ (Z.abs (Js.now hostDST - 7 * Js.msPerDay) <= Js.maxTime)%Z
      /\ filterByDate hostDST [quote "2021-03-25T12:30:00Z" 120] 7 = []
      /\ LaterThan hostDST (Js.now hostDST - 7 * Js.msPerDay)
           (quote "2021-03-25T12:30:00Z" 120)
      /\ daysBack hostDST 7 = (Js.now hostDST - 7 * Js.msPerDay + 3600000)%Z).
Proof.
  split.
  - split; [lia |].
    split; [reflexivity |].
    split; [left; reflexivity |].
    exists 1622419200000%Z. split; [reflexivity | vm_compute; reflexivity].
  - split; [lia |].
    split; [unfold Js.maxTime, Js.msPerDay; simpl; lia |].
    split; [reflexivity |].
    split; [| reflexivity].
    exists 1616675400000%Z. split; [reflexivity | vm_compute; reflexivity].
Qed.

(* ===================================================================== *)
(** * Label down-sampling *)
(* ===================================================================== *)

(** Truncation lies between zero and the number. *)
Lemma trunc_between (q : Q) :
  ((0 <= q -> 0 <= inject_Z (Js.trunc q) <= q) /\ (q <= 0 -> q <= inject_Z (Js.trunc q) <= 0))%Q.
Proof.
  destruct q as [n d]. unfold Js.trunc, Qle, inject_Z. simpl.
  pose proof (Z.quot_rem' n (Zpos d)) as Hqr.
  assert (Hd : (Zpos d <> 0)%Z) by discriminate.
  split; intro Hn.
  - assert (0 <= n)%Z by lia.
    pose proof (Z.rem_nonneg n (Zpos d) Hd H).
    pose proof (Z.quot_pos n (Zpos d) H ltac:(lia)).
    nia.
  - assert (n <= 0)%Z by lia.
    pose proof (Z.rem_nonpos n (Zpos d) Hd H).
    assert (Z.quot n (Zpos d) <= 0)%Z.
    { rewrite <- (Z.opp_involutive n), Z.quot_opp_l by exact Hd.
      pose proof (Z.quot_pos (- n) (Zpos d) ltac:(lia) ltac:(lia)). lia. }
    nia.
Qed.

(** The remainder has the sign of the dividend: by a negative divisor, a
    dividend that is not negative leaves a remainder that is not negative. *)
Lemma remainder_nonneg (a b r : Q) :
  (0 <= a)%Q -> (b < 0)%Q -> Js.remainder a b = Some r -> (0 <= r)%Q.
Proof.
  intros Ha Hb. unfold Js.remainder.
  destruct (Qeq_bool b 0) eqn:E; [discriminate|].
  intro H. injection H as <-.
  assert (Hb0 : ~ (b == 0)%Q) by (intro Hz; rewrite Hz in Hb; discriminate).
  assert (Hnb : (0 < - b)%Q) by lra.
  assert (Hq : (a / b <= 0)%Q).
  { assert (Heq : (a / b == (- a) / (- b))%Q) by (field; exact Hb0).
    rewrite Heq. apply Qle_shift_div_r; [exact Hnb | lra]. }
  destruct (trunc_between (a / b)) as [_ Hneg].
  destruct (Hneg Hq) as [Hlow _].
  set (T := inject_Z (Js.trunc (a / b))) in *.
  apply (Qmult_le_l _ _ (- b) Hnb) in Hlow.
  assert (Heq : (- b * (a / b) == - a)%Q) by (field; exact Hb0).
  rewrite Heq in Hlow.
  assert (Hbt : (- b * T == - (b * T))%Q) by ring.
  rewrite Hbt in Hlow. lra.
Qed.

(** For a step that is zero or negative no index passes
    [i % nth === nth - 1]: the left side is NaN or at least 0, the right
    side is below 0. *)
Lemma index_test_fails_below_one (i : nat) (nth : Q) :
  (nth <= 0)%Q ->
  Js.strict_equal (Js.remainder (inject_Z (Z.of_nat i)) nth) (nth - 1)%Q = false.
Proof.
  intro Hnth. unfold Js.strict_equal.
  destruct (Js.remainder (inject_Z (Z.of_nat i)) nth) as [r|] eqn:E; [|reflexivity].
  assert (Hlt : (nth < 0)%Q).
  { unfold Js.remainder in E. destruct (Qeq_bool nth 0) eqn:E0; [discriminate|].
    apply Qeq_bool_neq in E0. apply Qle_lt_or_eq in Hnth. tauto. }
  assert (Hi : (0 <= inject_Z (Z.of_nat i))%Q).
  { unfold Qle, inject_Z. simpl. lia. }
  pose proof (remainder_nonneg Hi Hlt E) as Hr.
  destruct (Qeq_bool r (nth - 1)) eqn:Eq; [|reflexivity].
  apply Qeq_bool_iff in Eq. lra.
Qed.

(** On whole numbers, the truncated quotient is the quotient of [Z]. *)
Lemma trunc_inject_div (i k : Z) :
  (k <> 0)%Z -> Js.trunc (inject_Z i / inject_Z k) = Z.quot i k.
Proof.
  intro Hk. unfold Js.trunc, Qdiv, Qinv, Qmult, inject_Z.
  destruct k as [|p|p]; [contradiction | |]; simpl.
  - rewrite Z.mul_1_r. reflexivity.
  - change (Z.neg p) with (- Z.pos p)%Z. rewrite Z.quot_opp_r by discriminate.
    replace (i * -1)%Z with (- i)%Z by lia.
    rewrite Z.quot_opp_l by discriminate. reflexivity.
Qed.

(** For a whole step [k >= 1] the test on index [i] is [i mod k = k - 1]. *)
Lemma remainder_index (i k : nat) :
  1 <= k ->
  Js.strict_equal (Js.remainder (inject_Z (Z.of_nat i)) (inject_Z (Z.of_nat k)))
               (inject_Z (Z.of_nat k) - 1)%Q
  = (i mod k =? k - 1).
Proof.
  intro Hk. unfold Js.remainder.
  assert (Hk0 : (Z.of_nat k <> 0)%Z) by lia.
  destruct (Qeq_bool (inject_Z (Z.of_nat k)) 0) eqn:E.
  { apply Qeq_bool_iff in E. unfold Qeq, inject_Z in E. simpl in E. lia. }
  rewrite trunc_inject_div by exact Hk0. unfold Js.strict_equal.
  assert (Hrem : (Z.of_nat i - Z.of_nat k * Z.quot (Z.of_nat i) (Z.of_nat k)
                 = Z.of_nat (i mod k))%Z).
  { rewrite Nat2Z.inj_mod, <- Z.rem_mod_nonneg by lia.
    pose proof (Z.quot_rem' (Z.of_nat i) (Z.of_nat k)). lia. }
  destruct (Nat.eqb_spec (i mod k) (k - 1)) as [Heq | Hne].
  - apply Qeq_bool_iff. unfold Qeq, Qminus, Qplus, Qmult, Qopp, inject_Z. simpl. lia.
  - match goal with
    | |- Qeq_bool ?x ?y = false => destruct (Qeq_bool x y) eqn:Eq; [|reflexivity]
    end.
    apply Qeq_bool_iff in Eq. unfold Qeq, Qminus, Qplus, Qmult, Qopp, inject_Z in Eq.
    simpl in Eq. lia.
Qed.

(** The residue of the next index. *)
Lemma succ_mod (s k : nat) :
  1 <= k ->
  (s mod k = k - 1 -> S s mod k = 0)
  /\ (s mod k <> k - 1 -> S s mod k = S (s mod k)).
Proof.
  intro Hk.
  pose proof (Nat.div_mod_eq s k) as Hs.
  pose proof (Nat.mod_upper_bound s k ltac:(lia)) as Hlt.
  split; intro H.
  - symmetry. apply (Nat.mod_unique (S s) k (S (s / k)) 0); lia.
  - symmetry. apply (Nat.mod_unique (S s) k (s / k) (S (s mod k))); lia.
Qed.

(** Filtering on [i mod k = k - 1] from index [s] on: position [j] of the
    result is the element [k - 1 - s mod k + k * j] places into the array. *)
Lemma filter_from_every (A : Type) (k : nat) (f : A -> nat -> bool) :
  1 <= k ->
  (forall e i, f e i = (i mod k =? k - 1)) ->
  forall arr s j,
    nth_error (Js.filter_from f s arr) j
    = nth_error arr (k - 1 - s mod k + k * j).
Proof.
  intros Hk Hf.
  induction arr as [|e rest IH]; intros s j.
  - simpl. destruct j; destruct (k - 1 - s mod k + _); reflexivity.
  - simpl. rewrite Hf.
    destruct (succ_mod s Hk) as [Hlast Hnext].
    pose proof (Nat.mod_upper_bound s k ltac:(lia)) as Hlt.
    destruct (Nat.eqb_spec (s mod k) (k - 1)) as [Heq | Hne].
    + destruct j as [|j].
      * replace (k - 1 - s mod k + k * 0) with 0 by lia. reflexivity.
      * simpl nth_error at 1. rewrite IH, (Hlast Heq).
        replace (k - 1 - s mod k + k * S j) with (S (k - 1 - 0 + k * j)) by nia.
        reflexivity.
    + rewrite IH, (Hnext Hne).
      replace (k - 1 - s mod k + k * j) with (S (k - 1 - S (s mod k) + k * j)) by lia.
      reflexivity.
Qed.

(** A callback that is always false keeps nothing. *)
Lemma filter_from_none (A : Type) (f : A -> nat -> bool) :
  (forall e i, f e i = false) ->
  forall arr s, Js.filter_from f s arr = [].
Proof.
  intros Hf arr. induction arr as [|e rest IH]; intro s; simpl; [reflexivity|].
  rewrite Hf. apply IH.
Qed.

(** C7, as the code has it.  [filterElements] never returns more elements
    than it is given.  It has no guard for a step that is zero or negative:
    no index passes the test then, so the result is empty. *)
Theorem filterElements_never_longer_and_empty_below_one :
  forall (A : Type) (arr : list A) (nth : Q),
    List.length (filterElements arr nth) <= List.length arr
    /\ ((nth <= 0)%Q -> filterElements arr nth = []).
Proof.
  intros A arr nth. split.
  - apply filter_from_length.
  - intro Hnth. unfold filterElements, Js.Array_filter.
    apply filter_from_none. intros _ i. apply index_test_fails_below_one, Hnth.
Qed.

Lemma filterElements_never_longer_and_empty_below_one_witness :
  (0 <= 0)%Q /\ filterElements ["Mon"; "Tue"; "Wed"]%string 0 = [].
Proof.
  assert (H : (0 <= 0)%Q) by apply Qle_refl.
  exact (conj H
    (proj2 (@filterElements_never_longer_and_empty_below_one
              string ["Mon"; "Tue"; "Wed"]%string 0%Q) H)).
Defined.

(** C7 fails as stated: with a step of zero (or a negative one) the labels
    are all dropped, not returned unchanged. *)
Lemma filterElements_zero_step_counterexample :
  filterElements ["Mon"; "Tue"; "Wed"]%string 0 = []
  /\ filterElements ["Mon"; "Tue"; "Wed"]%string (-1) = []
  /\ filterElements ["Mon"; "Tue"; "Wed"]%string 0 <> ["Mon"; "Tue"; "Wed"]%string.
Proof. repeat split. discriminate. Qed.

(** C8, as the code has it.  The second argument of [filterElements] is the
    step itself: for a whole step [k >= 1] the result holds, at position
    [j], the element of index [k * (j + 1) - 1] of the input, so the first
    one kept has index [k - 1] and every [k]-th one follows.  The chart
    passes a fifth of the length as the step: for 50 labels the step is 10
    and the labels kept are the five of indices 9, 19, 29, 39 and 49. *)
Theorem filterElements_keeps_every_nth :
  forall (A : Type) (arr : list A) (k : nat),
    1 <= k ->
    (forall j : nat,
       nth_error (filterElements arr (inject_Z (Z.of_nat k))) j
       = nth_error arr (k * (j + 1) - 1))
    /\ filterElements (seq 0 50) (inject_Z (Z.of_nat (List.length (seq 0 50))) / 5)%Q
       = [9; 19; 29; 39; 49].
Proof.
  intros A arr k Hk. split; [| reflexivity].
  intro j. unfold filterElements, Js.Array_filter.
  rewrite (@filter_from_every A k) by (auto using remainder_index).
  f_equal. rewrite Nat.Div0.mod_0_l. lia.
Qed.

Lemma filterElements_keeps_every_nth_witness :
  1 <= 3
  /\ (forall j : nat,
        nth_error (filterElements ["a"; "b"; "c"; "d"; "e"; "f"; "g"]%string
                     (inject_Z (Z.of_nat 3))) j
        = nth_error ["a"; "b"; "c"; "d"; "e"; "f"; "g"]%string (3 * (j + 1) - 1)).
Proof.
  assert (H : 1 <= 3) by lia.
  exact (conj H
    (proj1 (@filterElements_keeps_every_nth string
              ["a"; "b"; "c"; "d"; "e"; "f"; "g"]%string 3 H))).
Defined.

Example filterElements_step_3 :
  filterElements ["a"; "b"; "c"; "d"; "e"; "f"; "g"]%string 3 = ["c"; "f"]%string.
Proof. reflexivity. Qed.

(** C8 fails as stated.  Called on 50 labels with 10, the function keeps the
    indices 9, 19, ..., not 4, 9, 14, ...; and a step of 50 / 10 = 5 keeps
    ten labels, not five. *)
Lemma downsample_50_labels_counterexample :
  filterElements (seq 0 50) 10 = [9; 19; 29; 39; 49]
  /\ filterElements (seq 0 50) 10 <> [4; 9; 14; 19; 24; 29; 34; 39; 44; 49]
  /\ filterElements (seq 0 50) (50 / 10)%Q = [4; 9; 14; 19; 24; 29; 34; 39; 44; 49]
  /\ List.length (filterElements (seq 0 50) (50 / 10)%Q) <> 5.
Proof. repeat split; discriminate. Qed.

(* ===================================================================== *)
(** * The chart effect *)
(* ===================================================================== *)

(** C6, as the code has it.  With no day window chosen ([filter]
    undefined), a run of the effect on a loaded series shows a value for
    every point of the series, none dropped and none added, but in the
    reverse of the order the series was held in: [stocks.reverse()] runs
    before the windowing step, which then leaves the reversed array as it
    is. *)
Theorem effect_without_window_shows_reversed_series :
  forall (h : Js.host) (st : state),
    st_stocks st <> [] ->
    st_filter st = None ->
    st_values (effect h st) = rev (map (shown (st_toggle st)) (st_stocks st))
    /\ List.length (st_values (effect h st)) = List.length (st_stocks st).
Proof.
  intros h st Hne Hnone. unfold effect.
  destruct (st_stocks st) as [|p S] eqn:E; [contradiction |].
  cbn [List.length Nat.ltb Nat.leb]. cbv zeta. rewrite Hnone.
  cbn [newArray st_values].
  assert (Hv : (if st_toggle st
                then map percentage (rev (p :: S))
                else map data (rev (p :: S)))
               = rev (map (shown (st_toggle st)) (p :: S))).
  { rewrite <- map_rev. unfold shown. destruct (st_toggle st); reflexivity. }
  rewrite Hv. split; [reflexivity |].
  rewrite length_rev, length_map. reflexivity.
Qed.

Lemma effect_without_window_shows_reversed_series_witness :
  [quote "2021-05-31" 125; quote "2021-05-28" 124] <> []
  /\ st_values (effect host0
       {| st_stocks := [quote "2021-05-31" 125; quote "2021-05-28" 124];
          st_labels := []; st_values := [];
          st_filter := None; st_toggle := false |})
     = rev (map (shown false) [quote "2021-05-31" 125; quote "2021-05-28" 124]).
Proof.
  assert (H : [quote "2021-05-31" 125; quote "2021-05-28" 124] <> []) by discriminate.
  exact (conj H (proj1 (@effect_without_window_shows_reversed_series host0
     {| st_stocks := [quote "2021-05-31" 125; quote "2021-05-28" 124];
        st_labels := []; st_values := [];
        st_filter := None; st_toggle := false |} H eq_refl))).
Defined.

(** C6 fails as stated: with no window the two quotes come out in the
    opposite order, 124 before 125, not in the order of the series. *)
Lemma effect_without_window_counterexample :
  st_values (effect host0
    {| st_stocks := [quote "2021-05-31" 125; quote "2021-05-28" 124];
       st_labels := []; st_values := [];
       st_filter := None; st_toggle := false |})
  = [124%Q; 125%Q]
  /\ map data [quote "2021-05-31" 125; quote "2021-05-28" 124] = [125%Q; 124%Q]
  /\ st_values (effect host0
       {| st_stocks := [quote "2021-05-31" 125; quote "2021-05-28" 124];
          st_labels := []; st_values := [];
          st_filter := None; st_toggle := false |})
     <> map data [quote "2021-05-31" 125; quote "2021-05-28" 124].
Proof. repeat split. discriminate. Qed.

Lemma filterByDate_nil (h : Js.host) (d : Z) : filterByDate h [] d = [].
Proof. reflexivity. Qed.

(** With nothing loaded the effect does nothing. *)
Lemma effect_no_stocks (h : Js.host) (st : state) :
  st_stocks st = [] -> effect h st = st.
Proof. intro H. unfold effect. rewrite H. reflexivity. Qed.

(** Each run of the effect leaves the hook's array reversed. *)
Lemma effect_stocks (h : Js.host) (st : state) :
  st_stocks (effect h st) = rev (st_stocks st).
Proof.
  unfold effect. destruct (st_stocks st) as [|p S] eqn:E.
  - simpl. rewrite E. reflexivity.
  - reflexivity.
Qed.

(** So a second run, after a press on the toggle or on a window button,
    puts the series back in the order it was delivered in. *)
Lemma effect_twice_stocks (h : Js.host) (st : state) :
  st_stocks (effect h (effect h st)) = st_stocks st.
Proof. rewrite !effect_stocks. apply rev_involutive. Qed.

(** C9 (the code departs from it).  [filterByDate] builds a new array and an
    empty series gives an empty one, but the effect that calls it first runs
    [stocks.reverse()], which reverses the caller's own array: after every
    run the hook's array is the reverse of what it was, window or not.  Two
    quotes end up held in the opposite order. *)
Theorem effect_reverses_the_series_in_place :
  (forall (h : Js.host) (st : state),
     st_stocks (effect h st) = rev (st_stocks st))
  /\ st_stocks
       (effect host0 {| st_stocks := [quote "2021-05-31" 125; quote "2021-05-28" 124];
                        st_labels := []; st_values := [];
                        st_filter := None; st_toggle := false |})
     = [quote "2021-05-28" 124; quote "2021-05-31" 125]
  /\ st_stocks
       (effect host0 {| st_stocks := [quote "2021-05-31" 125; quote "2021-05-28" 124];
                        st_labels := []; st_values := [];
                        st_filter := Some 7%Z; st_toggle := false |})
     = [quote "2021-05-28" 124; quote "2021-05-31" 125].
Proof.
  split; [exact effect_stocks |].
  split; reflexivity.
Qed.

(** Fifty points, no window: the step is 10, and the labels shown are those
    of the indices 9, 19, 29, 39 and 49 of the reversed array. *)
Example effect_fifty_points :
  st_labels
    (effect host0 {| st_stocks := fifty; st_labels := []; st_values := [];
                     st_filter := None; st_toggle := false |})
  = ["40"; "30"; "20"; "10"; "00"]%string.
Proof. reflexivity. Qed.

(* ===================================================================== *)
(** * More on the search *)
(* ===================================================================== *)

(** A filter whose callback ignores the index is the filter of lists. *)
Lemma filter_from_index_free (A : Type) (f : A -> nat -> bool) (g : A -> bool) :
  (forall e i, f e i = g e) ->
  forall arr i, Js.filter_from f i arr = List.filter g arr.
Proof.
  intros Hfg arr. induction arr as [|e rest IH]; intro i; simpl; [reflexivity|].
  rewrite Hfg, IH. reflexivity.
Qed.

Lemma filterBySearch_filter (h : Js.host) (data : list Stock) (param : string) :
  filterBySearch h data param = List.filter (search_test h param) data.
Proof.
  unfold filterBySearch, Js.Array_filter.
  apply filter_from_index_free. reflexivity.
Qed.

(** A filter after a weaker filter is the filter alone. *)
Lemma filter_after_weaker (A : Type) (g1 g2 : A -> bool) (l : list A) :
  (forall x, g2 x = true -> g1 x = true) ->
  List.filter g2 (List.filter g1 l) = List.filter g2 l.
Proof.
  intro H. induction l as [|x l IH]; simpl; [reflexivity|].
  destruct (g1 x) eqn:E1; simpl.
  - rewrite IH. reflexivity.
  - destruct (g2 x) eqn:E2; [| exact IH].
    apply H in E2. congruence.
Qed.

Lemma filter_Subsequence (A : Type) (g : A -> bool) (l : list A) :
  Subsequence (List.filter g l) l.
Proof.
  induction l as [|x l IH]; simpl; [constructor|].
  destruct (g x); constructor; exact IH.
Qed.

Lemma Subsequence_refl (A : Type) (l : list A) : Subsequence l l.
Proof. induction l; constructor; assumption. Qed.

Lemma Subsequence_In (A : Type) (l' l : list A) :
  Subsequence l' l -> forall x, In x l' -> In x l.
Proof.
  induction 1 as [|y l' l _ IH|y l' l _ IH]; intros x Hx; simpl in *.
  - exact Hx.
  - right. apply IH, Hx.
  - destruct Hx as [-> | Hx]; [left; reflexivity | right; apply IH, Hx].
Qed.

Lemma Subsequence_map (A B : Type) (f : A -> B) (l' l : list A) :
  Subsequence l' l -> Subsequence (map f l') (map f l).
Proof. induction 1; simpl; constructor; assumption. Qed.

Lemma Subsequence_NoDup (A : Type) (l' l : list A) :
  Subsequence l' l -> NoDup l -> NoDup l'.
Proof.
  induction 1 as [|y l' l Hs IH|y l' l Hs IH]; intro Hnd.
  - constructor.
  - inversion Hnd; subst. apply IH. assumption.
  - inversion Hnd as [|? ? Hnotin Hnd']; subst. constructor.
    + intro Hin. apply Hnotin. apply (Subsequence_In Hs), Hin.
    + apply IH, Hnd'.
Qed.

Lemma toUpperCase_ascii_app (s r : string) :
  Js.toUpperCase_ascii (s ++ r)
  = (Js.toUpperCase_ascii s ++ Js.toUpperCase_ascii r)%string.
Proof. induction s as [|c s IH]; simpl; [reflexivity | rewrite IH; reflexivity]. Qed.

Lemma is_ascii_app (s r : string) :
  Js.is_ascii s = true -> Js.is_ascii r = true -> Js.is_ascii (s ++ r) = true.
Proof.
  intros Hs Hr. induction s as [|c s IH]; simpl in *; [exact Hr|].
  apply andb_true_iff in Hs. destruct Hs as [Hc Hs].
  rewrite Hc, (IH Hs). reflexivity.
Qed.

Lemma startsWith_shorter (s p r : string) :
  Js.startsWith s (p ++ r) = true -> Js.startsWith s p = true.
Proof.
  rewrite !startsWith_HasPrefix. intros [t Ht]. exists (r ++ t)%string.
  rewrite Ht. clear. induction p as [|c p IH]; simpl; [reflexivity | rewrite IH; reflexivity].
Qed.

(** For ASCII text, a stock that passes the test of a longer query passes
    the test of the query it extends. *)
Lemma search_test_shorter (h : Js.host) (query more : string) (stock : Stock) :
  Js.is_ascii query = true -> Js.is_ascii more = true ->
  search_test h (query ++ more) stock = true -> search_test h query stock = true.
Proof.
  intros Hq Hm. unfold search_test.
  rewrite (Js.toUpperCase_on_ascii h _ (is_ascii_app _ _ Hq Hm)).
  rewrite (Js.toUpperCase_on_ascii h _ Hq).
  rewrite !orb_true_iff, toUpperCase_ascii_app.
  intros [H | H]; [left | right]; eapply startsWith_shorter; exact H.
Qed.

(** X1.  Typing on narrows the rows: for ASCII text, the rows for a longer
    query are the rows for the query typed so far, filtered again, so they
    are a subsequence of them. *)
Theorem longer_query_narrows_rows :
  forall (h : Js.host) (stockList : list Stock) (query more : string),
    Js.is_ascii query = true ->
    Js.is_ascii more = true ->
    rowData h stockList (Some (query ++ more)%string)
    = rowData h (rowData h stockList (Some query)) (Some (query ++ more)%string)
    /\ Subsequence (rowData h stockList (Some (query ++ more)%string))
                   (rowData h stockList (Some query)).
Proof.
  intros h stockList query more Hq Hm. unfold rowData.
  assert (Heq : filterBySearch h stockList (query ++ more)
                = filterBySearch h (filterBySearch h stockList query) (query ++ more)).
  { rewrite !filterBySearch_filter. symmetry.
    apply filter_after_weaker. intro stock. apply search_test_shorter; assumption. }
  split; [exact Heq |].
  rewrite Heq, (filterBySearch_filter h (filterBySearch h stockList query)).
  apply filter_Subsequence.
Qed.

Lemma longer_query_narrows_rows_witness :
  Js.is_ascii "a" = true
  /\ Js.is_ascii "ap" = true
  /\ rowData host0 [AAPL; AMZN] (Some ("a" ++ "ap")%string)
     = rowData host0 (rowData host0 [AAPL; AMZN] (Some "a"%string))
         (Some ("a" ++ "ap")%string)
  /\ Subsequence (rowData host0 [AAPL; AMZN] (Some ("a" ++ "ap")%string))
                 (rowData host0 [AAPL; AMZN] (Some "a"%string)).
Proof.
  assert (Hq : Js.is_ascii "a" = true) by reflexivity.
  assert (Hm : Js.is_ascii "ap" = true) by reflexivity.
  exact (conj Hq (conj Hm
    (@longer_query_narrows_rows host0 [AAPL; AMZN] "a" "ap" Hq Hm))).
Defined.

(** X2.  The rows never repeat a key that the stock list does not repeat:
    if the symbols of the stock list are pairwise different, so are the
    keys of the rows, whatever the query. *)
Theorem rowData_keys_stay_distinct :
  forall (h : Js.host) (stockList : list Stock) (searchQuery : option string),
    NoDup (map keyExtractor stockList) ->
    NoDup (map keyExtractor (rowData h stockList searchQuery)).
Proof.
  intros h stockList searchQuery Hnd.
  apply (@Subsequence_NoDup _ _ (map keyExtractor stockList)); [| exact Hnd].
  apply Subsequence_map. destruct searchQuery as [query|]; simpl.
  - rewrite filterBySearch_filter. apply filter_Subsequence.
  - apply Subsequence_refl.
Qed.

Lemma rowData_keys_stay_distinct_witness :
  NoDup (map keyExtractor [AAPL; AMZN])
  /\ NoDup (map keyExtractor (rowData host0 [AAPL; AMZN] (Some "A"%string))).
Proof.
  assert (H : NoDup (map keyExtractor [AAPL; AMZN])).
  { repeat constructor; simpl; intuition discriminate. }
  exact (conj H (rowData_keys_stay_distinct host0 [AAPL; AMZN] (Some "A"%string) H)).
Defined.

(* ===================================================================== *)
(** * More on the initialisation *)
(* ===================================================================== *)

(** X3.  [initialiseData] runs to its end exactly when both reads resolve
    and the cache read is an array; it then hands that array on and stores
    nothing.  What the database read resolved to makes no difference. *)
Theorem initialiseData_completes_iff_cache_is_array :
  forall (getStocksFromDB _retrieveData : promise) (st : effects),
    initialiseData getStocksFromDB _retrieveData = Normal st
    <-> exists (db : value) (cached : list string),
          getStocksFromDB = Resolved db
          /\ _retrieveData = Resolved (Arr cached)
          /\ st = {| newState := cached; setItem := [] |}.
Proof.
  intros p q st. split.
  - destruct p as [db|]; [| discriminate].
    destruct q as [[| |cached]|]; try (destruct db; discriminate).
    rewrite initialiseData_resolved. intro H. injection H as <-.
    exists db, cached. auto.
  - intros [db [cached [-> [-> ->]]]]. apply initialiseData_resolved.
Qed.

(* ===================================================================== *)
(** * More on the day window *)
(* ===================================================================== *)

(** A list none of whose elements passes the test filters to nothing. *)
Lemma filter_nothing (A : Type) (g : A -> bool) (l : list A) :
  (forall x, In x l -> g x = false) -> List.filter g l = [].
Proof.
  induction l as [|x l IH]; intro H; simpl; [reflexivity|].
  rewrite (H x) by (left; reflexivity). apply IH.
  intros y Hy. apply H. right. exact Hy.
Qed.

(** [filterByDate] is the filter of lists against the clipped cutoff. *)
Lemma filterByDate_filter (h : Js.host) (S : list point) (d : Z) :
  filterByDate h S d
  = List.filter (date_test h (Js.TimeClip (daysBack h d))) S.
Proof.
  unfold filterByDate. cbv zeta. rewrite setDate_days_back.
  unfold Js.Array_filter. apply filter_from_index_free. reflexivity.
Qed.

(** A point that passes the test has a date, later than the cutoff. *)
Lemma date_test_true (h : Js.host) (newDate : option Z) (p : point) :
  date_test h newDate p = true ->
  exists t cutoff,
    Js.Date_parse h (labels p) = Some t /\ newDate = Some cutoff /\ (cutoff < t)%Z.
Proof.
  unfold date_test, Js.Date_gt.
  destruct (Js.Date_parse h (labels p)) as [t|]; [| discriminate].
  destruct newDate as [c|]; [| discriminate].
  intro H. apply Z.ltb_lt in H. exists t, c. auto.
Qed.

(** X4.  Whatever the day count (negative and out of range included), the
    window is a subsequence of the series, and every point it keeps has a
    label that parses to a date. *)
Theorem filterByDate_keeps_only_dated_points :
  forall (h : Js.host) (S : list point) (d : Z),
    Subsequence (filterByDate h S d) S
    /\ forall p, In p (filterByDate h S d) ->
                 exists t, Js.Date_parse h (labels p) = Some t.
Proof.
  intros h S d. rewrite filterByDate_filter. split.
  - apply filter_Subsequence.
  - intros p Hp. apply filter_In in Hp. destruct Hp as [_ Hp].
    destruct (date_test_true _ _ _ Hp) as [t [_ [Ht _]]]. exists t. exact Ht.
Qed.

(** X5.  A shorter window shows part of what a longer one shows: for
    [d1 <= d2], with the zone at the same offset now and at both cutoffs,
    and the cutoff of [d2] inside the range of [Date], the window of [d1]
    days is the window of [d1] days of the window of [d2] days, hence a
    subsequence of it. *)
Theorem shorter_window_is_within_longer :
  forall (h : Js.host) (S : list point) (d1 d2 : Z),
    (d1 <= d2)%Z ->
    SameOffset h d1 ->
    SameOffset h d2 ->
    (Z.abs (Js.now h - d2 * Js.msPerDay) <= Js.maxTime)%Z ->
    filterByDate h (filterByDate h S d2) d1 = filterByDate h S d1
    /\ Subsequence (filterByDate h S d1) (filterByDate h S d2).
Proof.
  intros h S d1 d2 Hle Hz1 Hz2 Hrange.
  assert (Heq : filterByDate h (filterByDate h S d2) d1 = filterByDate h S d1).
  { rewrite !filterByDate_filter.
    rewrite (daysBack_same_offset Hz1), (daysBack_same_offset Hz2).
    apply filter_after_weaker.
    intros p Hp. destruct (date_test_true _ _ _ Hp) as [t [c [Ht [Hc Hlt]]]].
    rewrite (TimeClip_in_range _ Hrange).
    unfold date_test, Js.Date_gt. rewrite Ht. apply Z.ltb_lt.
    unfold Js.TimeClip in Hc.
    destruct (Z.abs (Js.now h - d1 * Js.msPerDay) <=? Js.maxTime)%Z; [| discriminate].
    injection Hc as <-. unfold Js.msPerDay in *. lia. }
  split; [exact Heq |].
  rewrite <- Heq, (filterByDate_filter h (filterByDate h S d2)).
  apply filter_Subsequence.
Qed.

Lemma shorter_window_is_within_longer_witness :
  (7 <= 30)%Z
  /\ SameOffset host0 7
  /\ SameOffset host0 30
  /\ (Z.abs (Js.now host0 - 30 * Js.msPerDay) <= Js.maxTime)%Z
  /\ filterByDate host0 (filterByDate host0 series0 30) 7 = filterByDate host0 series0 7
  /\ Subsequence (filterByDate host0 series0 7) (filterByDate host0 series0 30).
Proof.
  assert (H0 : (7 <= 30)%Z) by lia.
  assert (Hz1 : SameOffset host0 7) by reflexivity.
  assert (Hz2 : SameOffset host0 30) by reflexivity.
  assert (H1 : (Z.abs (Js.now host0 - 30 * Js.msPerDay) <= Js.maxTime)%Z)
    by (unfold Js.maxTime, Js.msPerDay; simpl; lia).
  exact (conj H0 (conj Hz1 (conj Hz2 (conj H1
    (@shorter_window_is_within_longer host0 series0 7 30 H0 Hz1 Hz2 H1))))).
Defined.

(** X6.  Windowing and reversing commute: the window of the reversed series
    is the reversed window of the series. *)
Theorem filterByDate_of_reversed_series :
  forall (h : Js.host) (S : list point) (d : Z),
    filterByDate h (rev S) d = rev (filterByDate h S d).
Proof.
  intros h S d. rewrite !filterByDate_filter. apply filter_rev.
Qed.

(** X7.  A window of no days, or of a negative number of days, shows
    nothing of a series that holds no point dated after now, when the zone
    is at the same offset now and at the cutoff. *)
Theorem filterByDate_nonpositive_days_is_empty :
  forall (h : Js.host) (S : list point) (d : Z),
    (d <= 0)%Z ->
    SameOffset h d ->
    (forall p t, In p S -> Js.Date_parse h (labels p) = Some t -> (t <= Js.now h)%Z) ->
    filterByDate h S d = [].
Proof.
  intros h S d Hd Hz Hpast.
  rewrite filterByDate_filter, (daysBack_same_offset Hz).
  apply filter_nothing. intros p Hp.
  destruct (date_test h (Js.TimeClip (Js.now h - d * Js.msPerDay)) p) eqn:E;
    [| reflexivity].
  exfalso.
  destruct (date_test_true _ _ _ E) as [t [c [Ht [Hc Hlt]]]].
  unfold Js.TimeClip in Hc.
  destruct (Z.abs (Js.now h - d * Js.msPerDay) <=? Js.maxTime)%Z; [| discriminate].
  injection Hc as <-.
  assert (t <= Js.now h)%Z by (apply (Hpast p t); assumption).
  unfold Js.msPerDay in *. lia.
Qed.

Lemma filterByDate_nonpositive_days_is_empty_witness :
  (0 <= 0)%Z
  /\ SameOffset host0 0
  /\ (forall p t, In p series0 -> Js.Date_parse host0 (labels p) = Some t ->
                  (t <= Js.now host0)%Z)
  /\ filterByDate host0 series0 0 = [].
Proof.
  assert (H0 : (0 <= 0)%Z) by lia.
  assert (Hz : SameOffset host0 0) by reflexivity.
  assert (H1 : forall p t, In p series0 ->
                 Js.Date_parse host0 (labels p) = Some t -> (t <= Js.now host0)%Z).
  { intros p t Hp. simpl in Hp.
    repeat (destruct Hp as [<- | Hp]; [simpl; intro H; inversion H; subst; simpl; lia |]).
    contradiction. }
  exact (conj H0 (conj Hz (conj H1
    (@filterByDate_nonpositive_days_is_empty host0 series0 0 H0 Hz H1)))).
Defined.

(* ===================================================================== *)
(** * More on the labels *)
(* ===================================================================== *)

(** By a positive divisor too, a dividend that is not negative leaves a
    remainder that is not negative. *)
Lemma remainder_nonneg_pos (a b r : Q) :
  (0 <= a)%Q -> (0 < b)%Q -> Js.remainder a b = Some r -> (0 <= r)%Q.
Proof.
  intros Ha Hb. unfold Js.remainder.
  destruct (Qeq_bool b 0) eqn:E; [discriminate|].
  intro H. injection H as <-.
  assert (Hb0 : ~ (b == 0)%Q) by (intro Hz; rewrite Hz in Hb; discriminate).
  assert (Hq : (0 <= a / b)%Q) by (apply Qle_shift_div_l; [exact Hb | lra]).
  destruct (trunc_between (a / b)) as [Hpos _].
  destruct (Hpos Hq) as [_ Hup].
  set (T := inject_Z (Js.trunc (a / b))) in *.
  apply (Qmult_le_l _ _ b Hb) in Hup.
  assert (Heq : (b * (a / b) == a)%Q) by (field; exact Hb0).
  rewrite Heq in Hup. lra.
Qed.

(** No index passes the test of [filterElements] for a step below 1. *)
Lemma index_test_fails_below_1 (i : nat) (nth : Q) :
  (nth < 1)%Q ->
  Js.strict_equal (Js.remainder (inject_Z (Z.of_nat i)) nth) (nth - 1)%Q = false.
Proof.
  intro Hnth. unfold Js.strict_equal.
  destruct (Js.remainder (inject_Z (Z.of_nat i)) nth) as [r|] eqn:E; [|reflexivity].
  assert (Hi : (0 <= inject_Z (Z.of_nat i))%Q).
  { unfold Qle, inject_Z. simpl. lia. }
  assert (Hr : (0 <= r)%Q).
  { destruct (Qlt_le_dec nth 0) as [Hneg | Hnn].
    - exact (remainder_nonneg Hi Hneg E).
    - apply Qle_lt_or_eq in Hnn. destruct Hnn as [Hpos | Hz].
      + exact (remainder_nonneg_pos Hi Hpos E).
      + unfold Js.remainder in E.
        destruct (Qeq_bool nth 0) eqn:E0; [discriminate|].
        apply Qeq_bool_neq in E0. symmetry in Hz. contradiction. }
  destruct (Qeq_bool r (nth - 1)) eqn:Eq; [|reflexivity].
  apply Qeq_bool_iff in Eq. lra.
Qed.

(** X8.  A step below 1, a fraction included, keeps no element at all. *)
Theorem filterElements_step_below_1_keeps_nothing :
  forall (A : Type) (arr : list A) (nth : Q),
    (nth < 1)%Q -> filterElements arr nth = [].
Proof.
  intros A arr nth Hnth. unfold filterElements, Js.Array_filter.
  apply filter_from_none. intros _ i. apply index_test_fails_below_1, Hnth.
Qed.

Lemma filterElements_step_below_1_keeps_nothing_witness :
  (3 # 5 < 1)%Q /\ filterElements ["Mon"; "Tue"; "Wed"]%string (3 # 5) = [].
Proof.
  assert (H : (3 # 5 < 1)%Q) by reflexivity.
  exact (conj H (@filterElements_step_below_1_keeps_nothing
                   string ["Mon"; "Tue"; "Wed"]%string (3 # 5)%Q H)).
Defined.

(** Counting the indices with residue [k - 1] from index [s] on. *)
Lemma filter_from_every_length (A : Type) (k : nat) (f : A -> nat -> bool) :
  1 <= k ->
  (forall e i, f e i = (i mod k =? k - 1)) ->
  forall arr s,
    List.length (Js.filter_from f s arr) = (s mod k + List.length arr) / k.
Proof.
  intros Hk Hf.
  induction arr as [|e rest IH]; intro s.
  - simpl. rewrite Nat.add_0_r. symmetry. apply Nat.div_small.
    apply Nat.mod_upper_bound. lia.
  - simpl. rewrite Hf.
    destruct (succ_mod s Hk) as [Hlast Hnext].
    destruct (Nat.eqb_spec (s mod k) (k - 1)) as [Heq | Hne].
    + simpl. rewrite IH, (Hlast Heq), Heq. simpl.
      replace (k - 1 + S (List.length rest)) with (List.length rest + 1 * k) by lia.
      rewrite Nat.div_add by lia. lia.
    + rewrite IH, (Hnext Hne). f_equal. lia.
Qed.

(** X9.  For a whole step [k >= 1], [filterElements] keeps the whole part
    of [length / k] elements; with a step of 1 it keeps them all. *)
Theorem filterElements_keeps_length_div_step :
  forall (A : Type) (arr : list A) (k : nat),
    1 <= k ->
    List.length (filterElements arr (inject_Z (Z.of_nat k))) = List.length arr / k
    /\ filterElements arr 1 = arr.
Proof.
  intros A arr k Hk. split.
  - unfold filterElements, Js.Array_filter.
    rewrite (@filter_from_every_length A k) by (auto using remainder_index).
    rewrite Nat.Div0.mod_0_l. reflexivity.
  - unfold filterElements, Js.Array_filter. apply filter_from_all.
    intros _ i. change 1%Q with (inject_Z (Z.of_nat 1)).
    rewrite remainder_index by lia. rewrite Nat.mod_1_r. reflexivity.
Qed.

Lemma filterElements_keeps_length_div_step_witness :
  1 <= 3
  /\ List.length (filterElements ["a"; "b"; "c"; "d"; "e"; "f"; "g"]%string
                    (inject_Z (Z.of_nat 3)))
     = List.length ["a"; "b"; "c"; "d"; "e"; "f"; "g"]%string / 3.
Proof.
  assert (H : 1 <= 3) by lia.
  exact (conj H
    (proj1 (@filterElements_keeps_length_div_step string
              ["a"; "b"; "c"; "d"; "e"; "f"; "g"]%string 3 H))).
Defined.

(* ===================================================================== *)
(** * More on the chart effect *)
(* ===================================================================== *)

(** Equal rationals have the same truncation. *)
Lemma trunc_Qeq (q q' : Q) : (q == q')%Q -> Js.trunc q = Js.trunc q'.
Proof.
  destruct q as [n d], q' as [n' d']. unfold Qeq, Js.trunc. simpl. intro H.
  rewrite <- (Z.quot_mul_cancel_r n (Zpos d) (Zpos d')) by discriminate.
  rewrite <- (Z.quot_mul_cancel_r n' (Zpos d') (Zpos d)) by discriminate.
  rewrite H. f_equal. lia.
Qed.

(** [filterElements] does not tell equal steps apart. *)
Lemma filterElements_Qeq (A : Type) (arr : list A) (nth nth' : Q) :
  (nth == nth')%Q -> filterElements arr nth = filterElements arr nth'.
Proof.
  intro H. unfold filterElements, Js.Array_filter. generalize 0.
  induction arr as [|e rest IH]; intro i; simpl; [reflexivity|].
  assert (Htest :
    Js.strict_equal (Js.remainder (inject_Z (Z.of_nat i)) nth) (nth - 1)%Q
    = Js.strict_equal (Js.remainder (inject_Z (Z.of_nat i)) nth') (nth' - 1)%Q).
  { unfold Js.remainder.
    assert (Hz : Qeq_bool nth 0 = Qeq_bool nth' 0).
    { destruct (Qeq_bool nth 0) eqn:E1, (Qeq_bool nth' 0) eqn:E2; try reflexivity.
      - apply Qeq_bool_iff in E1. apply Qeq_bool_neq in E2.
        exfalso. apply E2. rewrite <- H. exact E1.
      - apply Qeq_bool_iff in E2. apply Qeq_bool_neq in E1.
        exfalso. apply E1. rewrite H. exact E2. }
    rewrite <- Hz. destruct (Qeq_bool nth 0); [reflexivity|].
    assert (Ht : Js.trunc (inject_Z (Z.of_nat i) / nth)
                 = Js.trunc (inject_Z (Z.of_nat i) / nth')).
    { apply trunc_Qeq. rewrite H. reflexivity. }
    rewrite <- Ht. unfold Js.strict_equal.
    set (T := inject_Z (Js.trunc (inject_Z (Z.of_nat i) / nth))).
    set (a := inject_Z (Z.of_nat i)).
    destruct (Qeq_bool (a - nth * T) (nth - 1)) eqn:E1,
             (Qeq_bool (a - nth' * T) (nth' - 1)) eqn:E2; try reflexivity.
    - apply Qeq_bool_iff in E1. apply Qeq_bool_neq in E2.
      exfalso. apply E2. rewrite <- H. exact E1.
    - apply Qeq_bool_iff in E2. apply Qeq_bool_neq in E1.
      exfalso. apply E1. rewrite H. exact E2. }
  rewrite Htest, !IH. reflexivity.
Qed.

(** The windowing step commutes with the reversal of the series. *)
Lemma newArray_rev (h : Js.host) (S : list point) (filter : option Z) :
  newArray h (rev S) filter = rev (newArray h S filter).
Proof.
  destruct filter as [d|]; simpl; [| reflexivity].
  rewrite !filterByDate_filter. apply filter_rev.
Qed.

(** What a run of the effect leaves when there are stocks. *)
Lemma effect_run (h : Js.host) (st : state) :
  st_stocks st <> [] ->
  effect h st
  = let shownArray := newArray h (rev (st_stocks st)) (st_filter st) in
    {| st_stocks := rev (st_stocks st);
       st_labels :=
         filterElements (map labels shownArray)
           (Js.double h (inject_Z (Z.of_nat (List.length shownArray)) / 5)%Q);
       st_values := map (shown (st_toggle st)) shownArray;
       st_filter := st_filter st;
       st_toggle := st_toggle st |}.
Proof.
  intro Hne. unfold effect. destruct (st_stocks st) as [|p S] eqn:E; [contradiction|].
  cbn [List.length Nat.ltb Nat.leb]. cbv zeta. f_equal.
  unfold shown. destruct (st_toggle st); reflexivity.
Qed.

Lemma rev_not_nil (A : Type) (l : list A) : l <> [] -> rev l <> [].
Proof.
  intros Hne Hrev. apply Hne. rewrite <- (rev_involutive l), Hrev. reflexivity.
Qed.

(** X10.  After a run on a loaded series there are never more labels than
    values, nor more values than points. *)
Theorem effect_counts :
  forall (h : Js.host) (st : state),
    st_stocks st <> [] ->
    List.length (st_labels (effect h st)) <= List.length (st_values (effect h st))
    /\ List.length (st_values (effect h st)) <= List.length (st_stocks (effect h st)).
Proof.
  intros h st Hne. rewrite (@effect_run h st Hne). cbv zeta.
  cbn [st_labels st_values st_stocks]. split.
  - unfold filterElements, Js.Array_filter.
    etransitivity; [apply filter_from_length |].
    rewrite !length_map. apply Nat.le_refl.
  - rewrite length_map. destruct (st_filter st) as [d|]; simpl.
    + rewrite filterByDate_filter. apply filter_length_le.
    + apply Nat.le_refl.
Qed.

Lemma effect_counts_witness :
  series0 <> []
  /\ List.length (st_labels (effect host0
        {| st_stocks := series0; st_labels := []; st_values := [];
           st_filter := Some 7%Z; st_toggle := false |}))
     <= List.length (st_values (effect host0
        {| st_stocks := series0; st_labels := []; st_values := [];
           st_filter := Some 7%Z; st_toggle := false |})).
Proof.
  assert (H : series0 <> []) by discriminate.
  exact (conj H (proj1 (effect_counts host0
     {| st_stocks := series0; st_labels := []; st_values := [];
        st_filter := Some 7%Z; st_toggle := false |} H))).
Defined.

(** X11.  When a fifth of the number of points in the window rounds to
    less than 1 (fewer than five points), the chart gets no label at all,
    while every point in the window still gets its value. *)
Theorem effect_few_points_no_labels :
  forall (h : Js.host) (st : state),
    st_stocks st <> [] ->
    (Js.double h (inject_Z (Z.of_nat (List.length
        (newArray h (rev (st_stocks st)) (st_filter st)))) / 5) < 1)%Q ->
    st_labels (effect h st) = []
    /\ st_values (effect h st)
       = map (shown (st_toggle st)) (newArray h (rev (st_stocks st)) (st_filter st)).
Proof.
  intros h st Hne Hstep. rewrite (@effect_run h st Hne). cbv zeta.
  cbn [st_labels st_values]. split; [| reflexivity].
  unfold filterElements, Js.Array_filter.
  apply filter_from_none. intros _ i. apply index_test_fails_below_1, Hstep.
Qed.

Lemma effect_few_points_no_labels_witness :
  [quote "2021-05-31" 125; quote "2021-05-28" 124] <> []
  /\ st_labels (effect host0
       {| st_stocks := [quote "2021-05-31" 125; quote "2021-05-28" 124];
          st_labels := []; st_values := [];
          st_filter := None; st_toggle := false |}) = []
  /\ st_values (effect host0
       {| st_stocks := [quote "2021-05-31" 125; quote "2021-05-28" 124];
          st_labels := []; st_values := [];
          st_filter := None; st_toggle := false |}) = [124%Q; 125%Q].
Proof.
  assert (H : [quote "2021-05-31" 125; quote "2021-05-28" 124] <> []) by discriminate.
  assert (Hstep : (Js.double host0 (inject_Z (Z.of_nat (List.length
            (newArray host0 (rev [quote "2021-05-31" 125; quote "2021-05-28" 124])
               None))) / 5) < 1)%Q) by reflexivity.
  exact (conj H (@effect_few_points_no_labels host0
     {| st_stocks := [quote "2021-05-31" 125; quote "2021-05-28" 124];
        st_labels := []; st_values := [];
        st_filter := None; st_toggle := false |} H Hstep)).
Defined.

(** X12.  When the window holds [5 * m] points, [m >= 1] (and the division
    by 5 is exact, as it is on doubles), the chart gets exactly five labels:
    those of the points at the indices [m - 1], [2 * m - 1], ..., [5 * m - 1]
    of the window, the last point included. *)
Theorem effect_multiple_of_five_gives_five_labels :
  forall (h : Js.host) (st : state) (m : nat),
    st_stocks st <> [] ->
    1 <= m ->
    List.length (newArray h (rev (st_stocks st)) (st_filter st)) = 5 * m ->
    (Js.double h (inject_Z (Z.of_nat (5 * m)) / 5) == inject_Z (Z.of_nat m))%Q ->
    List.length (st_labels (effect h st)) = 5
    /\ forall j : nat,
         nth_error (st_labels (effect h st)) j
         = nth_error (map labels (newArray h (rev (st_stocks st)) (st_filter st)))
                     (m * (j + 1) - 1).
Proof.
  intros h st m Hne Hm Hlen Hexact. rewrite (@effect_run h st Hne). cbv zeta.
  cbn [st_labels]. rewrite Hlen, (filterElements_Qeq _ Hexact).
  unfold filterElements, Js.Array_filter. split.
  - rewrite (@filter_from_every_length string m) by (auto using remainder_index).
    rewrite Nat.Div0.mod_0_l, length_map, Hlen, Nat.add_0_l.
    apply Nat.div_mul. lia.
  - intro j.
    rewrite (@filter_from_every string m) by (auto using remainder_index).
    f_equal. rewrite Nat.Div0.mod_0_l. lia.
Qed.

Lemma effect_multiple_of_five_gives_five_labels_witness :
  fifty <> []
  /\ List.length (st_labels (effect host0
       {| st_stocks := fifty; st_labels := []; st_values := [];
          st_filter := None; st_toggle := false |})) = 5.
Proof.
  assert (H : fifty <> []) by discriminate.
  assert (Hm : 1 <= 10) by lia.
  assert (Hlen : List.length (newArray host0 (rev fifty) None) = 5 * 10)
    by reflexivity.
  assert (Hexact : (Js.double host0 (inject_Z (Z.of_nat (5 * 10)) / 5)
                    == inject_Z (Z.of_nat 10))%Q) by reflexivity.
  exact (conj H (proj1 (@effect_multiple_of_five_gives_five_labels host0
     {| st_stocks := fifty; st_labels := []; st_values := [];
        st_filter := None; st_toggle := false |} 10 H Hm Hlen Hexact))).
Defined.

(** The fields a press on Toggle leaves alone, and the one it flips. *)
Lemma handleToggle_fields (st : state) :
  st_stocks (handleToggle st) = st_stocks st
  /\ st_filter (handleToggle st) = st_filter st
  /\ st_toggle (handleToggle st) = negb (st_toggle st).
Proof. unfold handleToggle. destruct (st_toggle st) eqn:E; simpl; auto. Qed.

(** What a run leaves of the settings. *)
Lemma effect_settings (h : Js.host) (st : state) :
  st_filter (effect h st) = st_filter st /\ st_toggle (effect h st) = st_toggle st.
Proof.
  unfold effect. destruct (0 <? List.length (st_stocks st)); split; reflexivity.
Qed.

(** X13.  A press on Toggle shows the other kind of value for the points of
    the window, but in the opposite order to the run before: the effect has
    reversed the series once more.  (The clock may have moved on between
    the two runs: each has its own host.) *)
Theorem pressToggle_shows_reversed_values :
  forall (h0 h1 : Js.host) (st0 : state),
    st_stocks st0 <> [] ->
    let st := effect h0 st0 in
    st_values st
    = map (shown (st_toggle st0)) (newArray h0 (st_stocks st) (st_filter st))
    /\ st_values (pressToggle h1 st)
       = rev (map (shown (negb (st_toggle st0)))
                  (newArray h1 (st_stocks st) (st_filter st))).
Proof.
  intros h0 h1 st0 Hne st.
  assert (H1 : st_stocks st = rev (st_stocks st0)) by apply effect_stocks.
  destruct (effect_settings h0 st0) as [F1 T1]. fold st in F1, T1.
  split.
  - rewrite H1, F1. subst st. rewrite (@effect_run h0 st0 Hne). reflexivity.
  - unfold pressToggle.
    destruct (handleToggle_fields st) as [Hs2 [Hf2 Ht2]].
    assert (Hne2 : st_stocks (handleToggle st) <> []).
    { rewrite Hs2, H1. apply rev_not_nil, Hne. }
    rewrite (@effect_run h1 _ Hne2). cbv zeta. cbn [st_values].
    rewrite Hs2, Hf2, Ht2, T1, newArray_rev, map_rev. reflexivity.
Qed.

Lemma pressToggle_shows_reversed_values_witness :
  series0 <> []
  /\ st_values (pressToggle host0 (effect host0
       {| st_stocks := series0; st_labels := []; st_values := [];
          st_filter := Some 7%Z; st_toggle := false |}))
     = [(125 / 100)%Q; (124 / 100)%Q].
Proof.
  assert (H : series0 <> []) by discriminate.
  exact (conj H (proj2 (@pressToggle_shows_reversed_values host0 host0
     {| st_stocks := series0; st_labels := []; st_values := [];
        st_filter := Some 7%Z; st_toggle := false |} H))).
Defined.

(** X14.  Two presses on Toggle bring the chart back: after a run on a
    loaded series, pressing Toggle twice leaves the series, the labels, the
    values and the settings exactly as a single run at the time of the
    second press does. *)
Theorem pressToggle_twice_restores_chart :
  forall (h0 h1 h2 : Js.host) (st0 : state),
    st_stocks st0 <> [] ->
    pressToggle h2 (pressToggle h1 (effect h0 st0)) = effect h2 st0.
Proof.
  intros h0 h1 h2 st0 Hne. unfold pressToggle.
  set (st1 := effect h0 st0).
  assert (H1 : st_stocks st1 = rev (st_stocks st0)) by apply effect_stocks.
  destruct (effect_settings h0 st0) as [F1 T1]. fold st1 in F1, T1.
  destruct (handleToggle_fields st1) as [Hs2 [Hf2 Ht2]].
  set (st3 := effect h1 (handleToggle st1)).
  assert (Hs3 : st_stocks st3 = st_stocks st0).
  { subst st3. rewrite effect_stocks, Hs2, H1. apply rev_involutive. }
  destruct (effect_settings h1 (handleToggle st1)) as [Hf3 Ht3]. fold st3 in Hf3, Ht3.
  destruct (handleToggle_fields st3) as [Hs4 [Hf4 Ht4]].
  assert (Hne4 : st_stocks (handleToggle st3) <> []) by (rewrite Hs4, Hs3; exact Hne).
  rewrite (@effect_run h2 _ Hne4), (@effect_run h2 st0 Hne). cbv zeta.
  rewrite Hs4, Hs3, Hf4, Hf3, Hf2, F1, Ht4, Ht3, Ht2, T1, negb_involutive.
  reflexivity.
Qed.

Lemma pressToggle_twice_restores_chart_witness :
  series0 <> []
  /\ pressToggle host0 (pressToggle host0 (effect host0
       {| st_stocks := series0; st_labels := []; st_values := [];
          st_filter := Some 30%Z; st_toggle := false |}))
     = effect host0
       {| st_stocks := series0; st_labels := []; st_values := [];
          st_filter := Some 30%Z; st_toggle := false |}.
Proof.
  assert (H : series0 <> []) by discriminate.
  exact (conj H (@pressToggle_twice_restores_chart host0 host0 host0
     {| st_stocks := series0; st_labels := []; st_values := [];
        st_filter := Some 30%Z; st_toggle := false |} H)).
Defined.

(** X15.  With no window chosen, a press on a window button followed by a
    press on R brings the chart back: the two reversals cancel, and the
    chart is exactly what a single run without window gives. *)
Theorem window_then_reset_restores_chart :
  forall (h0 h1 h2 : Js.host) (st0 : state) (days : Z),
    st_stocks st0 <> [] ->
    st_filter st0 = None ->
    pressFilter h2 None (pressFilter h1 (Some days) (effect h0 st0)) = effect h2 st0.
Proof.
  intros h0 h1 h2 st0 days Hne Hnone.
  set (st1 := effect h0 st0).
  assert (H1 : st_stocks st1 = rev (st_stocks st0)) by apply effect_stocks.
  destruct (effect_settings h0 st0) as [F1 T1]. fold st1 in F1, T1.
  rewrite Hnone in F1.
  unfold pressFilter at 2. rewrite F1. cbn [same_filter].
  set (st2 := effect h1 (setFilter (Some days) st1)).
  assert (Hs2 : st_stocks st2 = st_stocks st0).
  { subst st2. rewrite effect_stocks. cbn [setFilter st_stocks].
    rewrite H1. apply rev_involutive. }
  destruct (effect_settings h1 (setFilter (Some days) st1)) as [Hf2 Ht2].
  fold st2 in Hf2, Ht2. cbn [setFilter st_filter st_toggle] in Hf2, Ht2.
  unfold pressFilter. rewrite Hf2. cbn [same_filter].
  assert (Hne3 : st_stocks (setFilter None st2) <> []).
  { cbn [setFilter st_stocks]. rewrite Hs2. exact Hne. }
  rewrite (@effect_run h2 _ Hne3), (@effect_run h2 st0 Hne). cbv zeta.
  cbn [setFilter st_stocks st_filter st_toggle].
  rewrite Hs2, Ht2, T1, Hnone. reflexivity.
Qed.

Lemma window_then_reset_restores_chart_witness :
  series0 <> []
  /\ pressFilter host0 None (pressFilter host0 (Some 7%Z) (effect host0
       {| st_stocks := series0; st_labels := []; st_values := [];
          st_filter := None; st_toggle := false |}))
     = effect host0
       {| st_stocks := series0; st_labels := []; st_values := [];
          st_filter := None; st_toggle := false |}.
Proof.
  assert (H : series0 <> []) by discriminate.
  exact (conj H (@window_then_reset_restores_chart host0 host0 host0
     {| st_stocks := series0; st_labels := []; st_values := [];
        st_filter := None; st_toggle := false |} 7%Z H eq_refl)).
Defined.

(** X16.  A window that holds no point empties the chart: when the zone is
    at the same offset now and at the cutoff, and no point of the series is
    dated later than the cutoff, the run leaves no label and no value. *)
Theorem effect_empty_window_empties_chart :
  forall (h : Js.host) (st : state) (days : Z),
    st_stocks st <> [] ->
    st_filter st = Some days ->
    SameOffset h days ->
    (forall p, In p (st_stocks st) ->
               ~ LaterThan h (Js.now h - days * Js.msPerDay) p) ->
    st_labels (effect h st) = [] /\ st_values (effect h st) = [].
Proof.
  intros h st days Hne Hf Hz Hold. rewrite (@effect_run h st Hne). cbv zeta.
  cbn [st_labels st_values]. rewrite Hf.
  assert (Hempty : newArray h (rev (st_stocks st)) (Some days) = []).
  { cbn [newArray]. rewrite filterByDate_filter, filter_rev.
    rewrite (daysBack_same_offset Hz).
    rewrite filter_nothing; [reflexivity |].
    intros p Hp.
    destruct (date_test h (Js.TimeClip (Js.now h - days * Js.msPerDay)) p) eqn:E;
      [| reflexivity].
    exfalso. apply (Hold p Hp).
    destruct (date_test_true _ _ _ E) as [t [c [Ht [Hc Hlt]]]].
    exists t. split; [exact Ht |].
    unfold Js.TimeClip in Hc.
    destruct (Z.abs (Js.now h - days * Js.msPerDay) <=? Js.maxTime)%Z;
      [| discriminate].
    injection Hc as <-. exact Hlt. }
  rewrite Hempty. split; reflexivity.
Qed.

Lemma effect_empty_window_empties_chart_witness :
  [quote "2021-03-01" 121; quote "n/a" 0] <> []
  /\ SameOffset host0 7
  /\ st_labels (effect host0
       {| st_stocks := [quote "2021-03-01" 121; quote "n/a" 0];
          st_labels := ["old"%string]; st_values := [1%Q];
          st_filter := Some 7%Z; st_toggle := false |}) = []
  /\ st_values (effect host0
       {| st_stocks := [quote "2021-03-01" 121; quote "n/a" 0];
          st_labels := ["old"%string]; st_values := [1%Q];
          st_filter := Some 7%Z; st_toggle := false |}) = [].
Proof.
  assert (H : [quote "2021-03-01" 121; quote "n/a" 0] <> []) by discriminate.
  assert (Hz : SameOffset host0 7) by reflexivity.
  assert (Hold : forall p, In p [quote "2021-03-01" 121; quote "n/a" 0] ->
                   ~ LaterThan host0 (Js.now host0 - 7 * Js.msPerDay) p).
  { intros p [<- | [<- | []]] [t [Ht Hlt]]; simpl in Ht; inversion Ht; subst.
    revert Hlt. unfold Js.msPerDay. simpl. lia. }
  exact (conj H (conj Hz (@effect_empty_window_empties_chart host0
     {| st_stocks := [quote "2021-03-01" 121; quote "n/a" 0];
        st_labels := ["old"%string]; st_values := [1%Q];
        st_filter := Some 7%Z; st_toggle := false |} 7%Z H eq_refl Hz Hold))).
Defined.
